(** * Multi-service network with QoS: capture statistics, shaping classes
      and workload termination

    A shallow embedding of the Python sources
      - [src/traffic_analyzer.py]   (class [TrafficAnalyzer]),
      - [src/network_topology.py]   (class [MultiServiceNetwork]),
      - [src/traffic_generator.py]  (class [TrafficGenerator]),
    followed by the properties of the specification stated over it.

    Conventions.  Python [int] is [Z].  Python [dict]/[defaultdict] used as a
    map is a [gmap]; two dicts with the same items are equal whatever their
    insertion order, which is [gmap]'s extensional equality.  An exception that
    leaves a function is the [Raise] branch of [result].  The outputs of the
    shell pipelines that [analyze_pcap] starts with [subprocess.check_output]
    are inputs of the model ([raw_summary]).  A Python [float] is a binary64
    number ([Binary64], over [spec_float] of the Standard Library): the
    percentage of the report is computed and formatted there.  The average
    interval that the IoT workload logs is carried as the exact quotient of
    its two integers. *)

From Stdlib Require Import ZArith QArith Lia Ascii String SpecFloat.
From stdpp Require Import gmap strings list fin_maps pretty.

Open Scope Z_scope.

(** ** Exceptions *)

Inductive py_exn : Type :=
  | ValueError
  | ZeroDivisionError
  | OverflowError
  | CalledProcessError.

Inductive result (A : Type) : Type :=
  | Ok (a : A)
  | Raise (e : py_exn).
Arguments Ok {A} a.
Arguments Raise {A} e.

#[global] Instance result_ret : MRet result := λ A a, Ok a.

#[global] Instance result_bind : MBind result := λ A B k r,
  match r with
  | Ok a => k a
  | Raise e => Raise e
  end.

Definition is_Ok {A} (r : result A) : Prop := ∃ a, r = Ok a.

(** [a / b] on two [int]s in [generate_iot_traffic]: a [ZeroDivisionError]
    when [b] is zero, else the quotient, kept exact (its rounding to a float
    is in [Binary64.float_truediv]). *)
Definition truediv (a b : Z) : result Q :=
  if b =? 0 then Raise ZeroDivisionError else Ok (inject_Z a / inject_Z b)%Q.

(** ** Python floats

    A [float] is an IEEE 754 binary64 number: [spec_float] with a precision
    of 53 bits and exponents below 1024.  The operations round to nearest,
    ties to even. *)

Module Binary64.

Definition float_prec : Z := 53.
Definition float_emax : Z := 1024.

(** A value of the report: an [int] or a [float]. *)
Inductive py_num : Type :=
  | PyInt (n : Z)
  | PyFloat (x : spec_float).

(** The conversion of an [int] operand to [float]; an [int] whose rounding is
    beyond the largest float raises [OverflowError]. *)
Definition float_of_int (n : Z) : result spec_float :=
  match binary_normalize float_prec float_emax n 0 false with
  | S754_infinity _ => Raise OverflowError
  | x => Ok x
  end.

(** [100.0]. *)
Definition float_100 : spec_float :=
  binary_normalize float_prec float_emax 100 0 false.

(** The float nearest to the quotient of two [int]s, the divisor not zero:
    the exact quotient of the integers is rounded once. *)
Definition correctly_rounded_quotient (a b : Z) : spec_float :=
  match a with
  | Z0 => S754_zero (b <? 0)
  | _ =>
      let '(q, e, l) :=
        SFdiv_core_binary float_prec float_emax (Z.abs a) 0 (Z.abs b) 0 in
      binary_round_aux float_prec float_emax (xorb (a <? 0) (b <? 0)) q e l
  end.

(** [a / b] on two [int]s: [ZeroDivisionError] when [b] is zero,
    [OverflowError] when the quotient rounds beyond the largest float, else
    the float nearest to the quotient. *)
Definition float_truediv (a b : Z) : result spec_float :=
  if b =? 0 then Raise ZeroDivisionError
  else match correctly_rounded_quotient a b with
       | S754_infinity _ => Raise OverflowError
       | x => Ok x
       end.

(** [x * y] on two [float]s; it never raises. *)
Definition float_mul (x y : spec_float) : spec_float :=
  SFmul float_prec float_emax x y.

(** [math.isfinite]. *)
Definition is_finite (x : spec_float) : bool :=
  match x with
  | S754_zero _ | S754_finite _ _ _ => true
  | S754_infinity _ | S754_nan => false
  end.

(** [n / d] rounded to the nearest integer, ties to even. *)
Definition round_half_even_div (n d : Z) : Z :=
  let q := n / d in
  let r := n mod d in
  match 2 * r ?= d with
  | Lt => q
  | Eq => if Z.even q then q else q + 1
  | Gt => q + 1
  end.

(** The number of tenths nearest to [m * 2 ^ e]. *)
Definition tenths (m : positive) (e : Z) : Z :=
  if 0 <=? e then Zpos m * 2 ^ e * 10
  else round_half_even_div (Zpos m * 10) (2 ^ (- e)).

(** [format(x, '.1f')]: the decimal with one digit after the point nearest to
    the value of [x]. *)
Definition format_1f (x : spec_float) : string :=
  match x with
  | S754_nan => "nan"
  | S754_infinity s => if s then "-inf" else "inf"
  | S754_zero s => if s then "-0.0" else "0.0"
  | S754_finite s m e =>
      let t := tenths m e in
      (if s then "-" else "") +:+ pretty (t / 10) +:+ "." +:+ pretty (t mod 10)
  end.

(** [format(v, '.1f')] on a number: an [int] is converted to [float]
    first. *)
Definition format_num_1f (v : py_num) : result string :=
  match v with
  | PyInt n => x ← float_of_int n; Ok (format_1f x)
  | PyFloat x => Ok (format_1f x)
  end.

(** A float that is not infinite, not a NaN, and whose magnitude is below
    2 to the [bound]. *)
Definition finite_below (bound : Z) (x : spec_float) : Prop :=
  match x with
  | S754_zero _ => True
  | S754_finite _ m e => Zdigits2 (Zpos m) + e ≤ bound ∧ e ≤ 971
  | S754_infinity _ | S754_nan => False
  end.

End Binary64.

(** ** Python string primitives *)

Module PyStr.

(** [str.isspace] on the ASCII range: TAB, LF, VT, FF, CR, FS, GS, RS, US and
    the blank. *)
Definition is_space (a : ascii) : bool :=
  let n := N_of_ascii a in
  ((9 <=? n)%N && (n <=? 13)%N) || ((28 <=? n)%N && (n <=? 32)%N).

(** [s.lstrip()], [s.rstrip()], [s.strip()]. *)
Fixpoint lstrip (s : string) : string :=
  match s with
  | EmptyString => EmptyString
  | String a s' => if is_space a then lstrip s' else s
  end.

Fixpoint rstrip (s : string) : string :=
  match s with
  | EmptyString => EmptyString
  | String a s' =>
      match rstrip s' with
      | EmptyString => if is_space a then EmptyString else String a EmptyString
      | r => String a r
      end
  end.

Definition strip (s : string) : string := rstrip (lstrip s).

(** [s.split(sep)] for a one-character separator: never the empty list. *)
Fixpoint split (sep : ascii) (s : string) : list string :=
  match s with
  | EmptyString => [EmptyString]
  | String a s' =>
      if Ascii.eqb a sep then EmptyString :: split sep s'
      else match split sep s' with
           | [] => [String a EmptyString]
           | w :: ws => String a w :: ws
           end
  end.

(** [s.split()]: the maximal runs of non-blank characters. *)
Fixpoint words_aux (s : string) : string * list string :=
  match s with
  | EmptyString => (EmptyString, [])
  | String a s' =>
      let '(w, ws) := words_aux s' in
      if is_space a
      then (EmptyString, match w with EmptyString => ws | _ => w :: ws end)
      else (String a w, ws)
  end.

Definition split_ws (s : string) : list string :=
  let '(w, ws) := words_aux s in
  match w with EmptyString => ws | _ => w :: ws end.

(** [s.startswith(p)]. *)
Fixpoint startswith (p s : string) : bool :=
  match p, s with
  | EmptyString, _ => true
  | String a p', String b s' => Ascii.eqb a b && startswith p' s'
  | String _ _, EmptyString => false
  end.

(** [int(s)] on a [str]: blanks around, an optional sign, decimal digits with
    single underscores between them; anything else is a [ValueError]. *)
Definition digit_val (a : ascii) : option Z :=
  let n := Z.of_N (N_of_ascii a) in
  if (48 <=? n) && (n <=? 57) then Some (n - 48) else None.

Fixpoint int_digits (acc : Z) (after_underscore : bool) (s : string) : option Z :=
  match s with
  | EmptyString => if after_underscore then None else Some acc
  | String a s' =>
      if Ascii.eqb a "_"%char
      then (if after_underscore then None else int_digits acc true s')
      else match digit_val a with
           | Some d => int_digits (acc * 10 + d) false s'
           | None => None
           end
  end.

Definition int_unsigned (s : string) : option Z :=
  match s with
  | EmptyString => None
  | String a s' =>
      match digit_val a with
      | Some d => int_digits d false s'
      | None => None
      end
  end.

Definition int (s : string) : result Z :=
  let body :=
    match strip s with
    | String "-"%char s' => Z.opp <$> int_unsigned s'
    | String "+"%char s' => int_unsigned s'
    | s' => int_unsigned s'
    end in
  match body with
  | Some z => Ok z
  | None => Raise ValueError
  end.

(** [c in s] for a character [c]. *)
Fixpoint has_char (c : ascii) (s : string) : bool :=
  match s with
  | EmptyString => false
  | String a s' => Ascii.eqb a c || has_char c s'
  end.

(** [os.path.basename(p)]: what follows the last slash. *)
Definition basename (p : string) : string :=
  List.last (split "/"%char p) EmptyString.

End PyStr.

(** ** [traffic_analyzer.py]: capture ingestion and aggregation *)

Module TrafficAnalyzer.
Import Binary64.
Import PyStr.

(** The value of [host_traffic[ip]]: [{'sent': ..., 'received': ...}]. *)
Record traffic : Type := Traffic { sent : Z; received : Z }.

(** The dict returned by [analyze_pcap]. *)
Record capture_record : Type := CaptureRecord {
  total_packets : Z;
  protocols : gmap string Z;
  host_traffic : gmap string traffic;
  filename : string
}.

(** What the five [tcpdump] pipelines of [analyze_pcap] print for one capture
    file: the four [wc -l] counts, already read by [int(result.strip())], and
    the text of the [sort | uniq -c] listing of source addresses, [None] when
    that pipeline ends in a [CalledProcessError]. *)
Record raw_summary : Type := RawSummary {
  wc_all : Z;
  wc_tcp : Z;
  wc_udp : Z;
  wc_icmp : Z;
  src_listing : option string
}.

(** [sum(d.values())]. *)
Definition dict_sum (d : gmap string Z) : Z :=
  map_fold (λ _ v acc, acc + v) 0 d.

(** [defaultdict(lambda: {'sent': 0, 'received': 0})]. *)
Definition default_traffic : traffic := Traffic 0 0.

(** [host_traffic[ip]['sent'] = count]: the entry is created with the default
    when it is missing, then its [sent] field is overwritten. *)
Definition set_sent (ip : string) (count : Z) (m : gmap string traffic)
  : gmap string traffic :=
  let t := default default_traffic (m !! ip) in
  <[ip := Traffic count (received t)]> m.

(** The address test of [analyze_pcap]: [ip.startswith('10.0.')]. *)
Definition in_address_space (ip : string) : bool := startswith "10.0." ip.

(** No entry of a map is outside the address space. *)
Definition inside_only (m : gmap string traffic) : Prop :=
  ∀ ip, in_address_space ip = false → m !! ip = None.

(** Every [received] counter of a map is zero. *)
Definition nothing_received (m : gmap string traffic) : Prop :=
  ∀ ip t, m !! ip = Some t → received t = 0.

(** The body of [for line in result.strip().split('\n')]. *)
Definition host_line (m : gmap string traffic) (line : string)
  : result (gmap string traffic) :=
  match line with
  | EmptyString => Ok m
  | _ =>
      match split_ws (strip line) with
      | [c; ip] =>
          count ← int c;
          if in_address_space ip then Ok (set_sent ip count m) else Ok m
      | _ => Ok m
      end
  end.

(** A line of the listing as [uniq -c] prints it has a count that [int]
    reads. *)
Definition count_readable (line : string) : bool :=
  match line with
  | EmptyString => true
  | _ =>
      match split_ws (strip line) with
      | [c; _] => match int c with Ok _ => true | Raise _ => false end
      | _ => true
      end
  end.

Definition listing_readable (listing : option string) : bool :=
  match listing with
  | Some text => forallb count_readable (split "010"%char (strip text))
  | None => true
  end.

Fixpoint host_lines (m : gmap string traffic) (lines : list string)
  : result (gmap string traffic) :=
  match lines with
  | [] => Ok m
  | line :: rest => m' ← host_line m line; host_lines m' rest
  end.

(** The [try: ... except subprocess.CalledProcessError: pass] block. *)
Definition parse_host_traffic (listing : option string)
  : result (gmap string traffic) :=
  match listing with
  | Some text => host_lines ∅ (split "010"%char (strip text))
  | None => Ok ∅
  end.

(** The protocol dict of [analyze_pcap], statement by statement. *)
Definition protocol_counts (raw : raw_summary) : gmap string Z :=
  let protocols : gmap string Z := ∅ in
  let protocols := <["TCP" := wc_tcp raw]> protocols in
  let protocols := <["UDP" := wc_udp raw]> protocols in
  let protocols := <["ICMP" := wc_icmp raw]> protocols in
  <["Other" := wc_all raw - dict_sum protocols]> protocols.

Definition analyze_pcap (pcap_file : string) (raw : raw_summary)
  : result capture_record :=
  let total_packets := wc_all raw in
  let protocols := protocol_counts raw in
  host_traffic ← parse_host_traffic (src_listing raw);
  Ok (CaptureRecord total_packets protocols host_traffic (basename pcap_file)).

(** [f.endswith(suffix)]. *)
Definition endswith (suffix s : string) : bool :=
  startswith (String.rev suffix) (String.rev s).

(** [analyze_all_pcaps]: the directory listing is the input, each file name
    with what its pipelines print; a capture whose analysis raises is reported
    and left out. *)
Definition analyze_all_pcaps (pcap_dir : string)
    (listing : list (string * raw_summary)) : list capture_record :=
  let pcap_files := filter (λ f, endswith ".pcap" f.1 = true) listing in
  omap (λ f,
          match analyze_pcap (pcap_dir +:+ "/" +:+ f.1) f.2 with
          | Ok r => Some r
          | Raise _ => None
          end) pcap_files.

(** [total_protocols[protocol] += count] over the items of one record. *)
Definition add_protocols (acc d : gmap string Z) : gmap string Z :=
  map_fold (λ protocol count acc, <[protocol := default 0 (acc !! protocol) + count]> acc)
           acc d.

(** [generate_protocol_chart]: the totals handed to the pie chart. *)
Definition generate_protocol_chart (results : list capture_record)
  : gmap string Z :=
  foldl (λ total_protocols r, add_protocols total_protocols (protocols r)) ∅ results.

(** [result['filename'].split('_')[0]]. *)
Definition switch_name (filename : string) : string :=
  default EmptyString (head (split "_"%char filename)).

(** [generate_traffic_by_switch]: the dict handed to the bar chart;
    [switch_data[switch_name] = result['total_packets']]. *)
Definition generate_traffic_by_switch (results : list capture_record)
  : gmap string Z :=
  foldl (λ switch_data r, <[switch_name (filename r) := total_packets r]> switch_data)
        ∅ results.

(** [host_data[host]['sent'] += ...; host_data[host]['received'] += ...]. *)
Definition add_traffic (acc : gmap string traffic) (d : gmap string traffic)
  : gmap string traffic :=
  map_fold (λ host t acc,
              let cur := default default_traffic (acc !! host) in
              <[host := Traffic (sent cur + sent t) (received cur + received t)]> acc)
           acc d.

(** [generate_host_traffic_matrix]: the per-host totals handed to the chart. *)
Definition generate_host_traffic_matrix (results : list capture_record)
  : gmap string traffic :=
  foldl (λ host_data r, add_traffic host_data (host_traffic r)) ∅ results.

(** [(count / total * 100) if total > 0 else 0] of [generate_report]: the
    float [count / total] times the [int] 100, which is converted to
    [100.0]; the [int] 0 when the total is not positive. *)
Definition percentage (count total : Z) : result py_num :=
  if 0 <? total
  then q ← float_truediv count total;
       h ← float_of_int 100;
       Ok (PyFloat (float_mul q h))
  else Ok (PyInt 0).

(** The line that [generate_report] writes for one item of the protocol
    dict, four blanks, then [{protocol}: {count} ({percentage:.1f}%)] and
    a newline. *)
Definition report_protocol_line (total : Z) (item : string * Z)
  : result string :=
  pct ← percentage item.2 total;
  text ← format_num_1f pct;
  Ok ("    " +:+ item.1 +:+ ": " +:+ pretty item.2 +:+ " (" +:+ text +:+ "%)"
        +:+ String "010" EmptyString).

(** [sum(r['total_packets'] for r in results)]. *)
Definition report_total_packets (results : list capture_record) : Z :=
  foldl (λ acc r, acc + total_packets r) 0 results.

End TrafficAnalyzer.

(** ** [network_topology.py]: topology and traffic-control classes *)

Module MultiServiceNetwork.





(** The [tc] command lines that [apply_qos_policies] passes to [h.cmd];
    rates are in mbit. *)
Inductive tc_cmd : Type :=
  | QdiscAddRootHtb (dev handle : string) (default_minor : Z)
  | ClassAddHtb (dev parent classid : string) (rate : Z)
                (ceil : option Z) (prio : option Z).

Definition render (c : tc_cmd) : string :=
  match c with
  | QdiscAddRootHtb dev handle d =>
      "tc qdisc add dev " +:+ dev +:+ " root handle " +:+ handle
        +:+ " htb default " +:+ pretty d
  | ClassAddHtb dev parent classid rate ceil prio =>
      "tc class add dev " +:+ dev +:+ " parent " +:+ parent
        +:+ " classid " +:+ classid +:+ " htb rate " +:+ pretty rate +:+ "mbit"
        +:+ match ceil with
            | Some c => " ceil " +:+ pretty c +:+ "mbit"
            | None => EmptyString
            end
        +:+ match prio with
            | Some p => " prio " +:+ pretty p
            | None => EmptyString
            end
  end.

(** The three [h.cmd] calls issued for one interface. *)
Definition qos_commands (intf : string) (root_rate : Z) (classid : string)
    (rate ceil prio : Z) : list tc_cmd :=
  [ QdiscAddRootHtb intf "1:" 30;
    ClassAddHtb intf "1:" "1:1" root_rate None None;
    ClassAddHtb intf "1:1" classid rate (Some ceil) (Some prio) ].

Section Interfaces.

(** [h.intfList()] of the emulator, by host name: the names of the host's
    interfaces. *)
Variable intfList : string → list string.

(** One of the three [for host in [...]] loops: for every interface of every
    listed host other than [lo], the commands issued to it. *)
Definition qos_loop (host_names : list string) (root_rate : Z)
    (classid : string) (rate ceil prio : Z)
  : list (string * string * list tc_cmd) :=
  host ← host_names;
  intf ← intfList host;
  if bool_decide (intf ≠ "lo")
  then [(host, intf, qos_commands intf root_rate classid rate ceil prio)]
  else [].

(** [apply_qos_policies]: web (high priority), video (medium), IoT (low). *)
Definition apply_qos_policies : list (string * string * list tc_cmd) :=
  qos_loop ["h1"; "h2"] 100 "1:10" 80 100 1
  ++ qos_loop ["h3"; "h4"] 1000 "1:20" 800 1000 2
  ++ qos_loop ["h5"; "h6"] 100 "1:30" 50 100 3.

End Interfaces.

(** An HTB class as the kernel holds it: a class added without [ceil] has its
    ceiling equal to its rate. *)
Record htb_class : Type := HtbClass {
  cls_id : string;
  cls_parent : string;
  cls_rate : Z;
  cls_ceil : Z;
  cls_prio : option Z
}.

(** The shaping tree of one interface: the class under the root qdisc and the
    classes below it. *)
Record shaping_tree : Type := ShapingTree {
  tree_root : htb_class;
  tree_leaves : list htb_class
}.

Definition classes_of (cmds : list tc_cmd) : list htb_class :=
  omap (λ c, match c with
             | ClassAddHtb _ parent classid rate ceil prio =>
                 Some (HtbClass classid parent rate (default rate ceil) prio)
             | QdiscAddRootHtb _ _ _ => None
             end) cmds.

Definition qdisc_handle (cmds : list tc_cmd) : option string :=
  head (omap (λ c, match c with
                   | QdiscAddRootHtb _ handle _ => Some handle
                   | ClassAddHtb _ _ _ _ _ _ => None
                   end) cmds).

Definition shaping_tree_of (cmds : list tc_cmd) : option shaping_tree :=
  handle ← qdisc_handle cmds;
  root ← List.find (λ c, bool_decide (cls_parent c = handle)) (classes_of cmds);
  Some (ShapingTree root
          (filter (λ c, cls_parent c = cls_id root) (classes_of cmds))).


End MultiServiceNetwork.

(** ** [traffic_generator.py]: the IoT workload *)

Module TrafficGenerator.

(** What one evaluation of the loop test of [generate_iot_traffic] observes,
    [time.time() - start_time] and [self.stop_event.is_set()], with the
    [random.randint(50, 200)] drawn when the body runs. *)
Record loop_obs : Type := LoopObs {
  elapsed : Q;
  stop_set : bool;
  data_size : Z
}.

(** The lines written to the log file. *)
Inductive log_entry : Type :=
  | SensorUpdate (packet_count data_size : Z)
  | TotalPackets (packet_count : Z)
  | AverageInterval (seconds : Q).

(** [time.time() - start_time < duration and not self.stop_event.is_set()]. *)
Definition loop_test (duration : Z) (o : loop_obs) : bool :=
  negb (Qle_bool (inject_Z duration) (elapsed o)) && negb (stop_set o).

(** The [while] loop over the observations of its successive tests; [None]
    when the observations end before the test fails. *)
Fixpoint iot_loop (duration packet_count : Z) (log : list log_entry)
    (trace : list loop_obs) : option (Z * list log_entry) :=
  match trace with
  | [] => None
  | o :: rest =>
      if loop_test duration o
      then let packet_count := packet_count + 1 in
           iot_loop duration packet_count
                    (log ++ [SensorUpdate packet_count (data_size o)]) rest
      else Some (packet_count, log)
  end.

(** [generate_iot_traffic]: the log written and how the call ends. *)
Definition generate_iot_traffic (duration : Z) (trace : list loop_obs)
  : option (list log_entry * result unit) :=
  '(packet_count, log) ← iot_loop duration 0 [] trace;
  let log := log ++ [TotalPackets packet_count] in
  match truediv duration packet_count with
  | Ok avg => Some (log ++ [AverageInterval avg], Ok ())
  | Raise e => Some (log, Raise e)
  end.

End TrafficGenerator.

(** ** Sample inputs *)

Module Samples.
Import PyStr TrafficAnalyzer MultiServiceNetwork TrafficGenerator.

Definition nl : string := String "010"%char EmptyString.

(** The counts of the specification's round trip: TCP 50, UDP 30, ICMP 5. *)
Definition consistent_summary : raw_summary :=
  RawSummary 100 50 30 5 (Some EmptyString).

Definition inconsistent_summary : raw_summary :=
  RawSummary 80 50 30 5 (Some EmptyString).

(** A listing with one address of the emulated network and one outside it. *)
Definition mixed_listing : string :=
  "      3 10.0.0.1" +:+ nl +:+ "      7 192.168.1.9" +:+ nl.

Definition mixed_summary : raw_summary :=
  RawSummary 120 100 12 8 (Some mixed_listing).

(** Two captures of switch [s1] taken by two runs, as the [pcaps] directory
    holds them after [run_all_experiments]. *)
Definition first_run : string * raw_summary :=
  ("s1_20250605_100000.pcap",
   RawSummary 120 100 12 8 (Some ("      3 10.0.0.1" +:+ nl))).

Definition second_run : string * raw_summary :=
  ("s1_20250605_110000.pcap",
   RawSummary 340 300 30 10 (Some ("      4 10.0.0.1" +:+ nl))).

(** Mininet names the only interface of host [h] [h-eth0]. *)
Definition one_interface (host : string) : list string := [host +:+ "-eth0"].

End Samples.

(** ** [traffic_analyzer.py]: the service totals of the report and the tests
       before the charts *)

Module AnalysisReport.
Import PyStr TrafficAnalyzer.

(** The [if / elif / elif] on the host address in [generate_report]: the key
    of [service_traffic] that a host adds to, if any. *)
Definition service_of (host : string) : option string :=
  if startswith "10.0.1." host then Some "Web (10.0.1.x)"
  else if startswith "10.0.2." host then Some "Video (10.0.2.x)"
  else if startswith "10.0.3." host then Some "IoT (10.0.3.x)"
  else None.

(** The initial [service_traffic] dict. *)
Definition service_traffic_init : gmap string Z :=
  <["IoT (10.0.3.x)" := 0]>
    (<["Video (10.0.2.x)" := 0]> (<["Web (10.0.1.x)" := 0]> ∅)).

(** [service_traffic[key] += traffic['sent'] + traffic['received']] over the
    hosts of one record; the three keys are always there, so the default of
    the lookup is never taken. *)
Definition add_service_traffic (acc : gmap string Z) (d : gmap string traffic)
  : gmap string Z :=
  map_fold (λ host t acc,
              let total := sent t + received t in
              match service_of host with
              | Some key => <[key := default 0 (acc !! key) + total]> acc
              | None => acc
              end)
           acc d.

Definition service_traffic (results : list capture_record) : gmap string Z :=
  foldl (λ acc r, add_service_traffic acc (host_traffic r))
        service_traffic_init results.

(** [if not total_protocols], [if not switch_data], [if not host_data]: the
    test before the early return of a chart function, true on the empty
    dict. *)
Definition nothing_to_plot {V} (d : gmap string V) : bool :=
  bool_decide (size d = 0%nat).

(** The [sent] and [received] counters that a record holds for a host, 0 when
    the record does not name the host. *)
Definition sent_of (host : string) (r : capture_record) : Z :=
  from_option sent 0 (host_traffic r !! host).

Definition received_of (host : string) (r : capture_record) : Z :=
  from_option received 0 (host_traffic r !! host).

(** The switch names of a list of records, in order. *)
Definition switch_names (rs : list capture_record) : list string :=
  (λ r, switch_name (filename r)) <$> rs.

End AnalysisReport.

(** ** [network_topology.py]: captures and the parts of a command *)

Module Captures.
Import MultiServiceNetwork.

(** [f"{pcap_dir}/{sw_name}_{timestamp}.pcap"] of [run_experiment]. *)
Definition capture_file (pcap_dir sw_name timestamp : string) : string :=
  pcap_dir +:+ "/" +:+ sw_name +:+ "_" +:+ timestamp +:+ ".pcap".

(** The interface that a command addresses. *)
Definition cmd_dev (c : tc_cmd) : string :=
  match c with
  | QdiscAddRootHtb dev _ _ => dev
  | ClassAddHtb dev _ _ _ _ _ => dev
  end.

(** The class that [htb default N] under handle [H] sends unclassified
    traffic to: [H] followed by [N]. *)
Definition default_class (cmds : list tc_cmd) : option string :=
  head (omap (λ c, match c with
                   | QdiscAddRootHtb _ handle minor => Some (handle +:+ pretty minor)
                   | ClassAddHtb _ _ _ _ _ _ => None
                   end) cmds).

End Captures.

(** ** [traffic_generator.py]: the video workload and the start of the
       threads *)

Module Workloads.
Import TrafficGenerator.

(** The keys of the [bitrates] dict of [generate_video_traffic]. *)
Inductive quality : Type := Q480p | Q720p | Q1080p | Q4k.

(** [bitrates[quality]], in Mbps. *)
Definition bitrates (q : quality) : Q :=
  match q with
  | Q480p => 5 # 2
  | Q720p => inject_Z 5
  | Q1080p => inject_Z 8
  | Q4k => inject_Z 25
  end.

(** What one evaluation of the loop test observes, with the value of
    [random.random()] and the key that [random.choice] returns when the body
    runs and the value is below 0.1. *)
Record video_obs : Type := VideoObs {
  v_elapsed : Q;
  v_stop_set : bool;
  v_random : Q;
  v_choice : quality
}.

(** Everything [generate_video_traffic] does, in order. *)
Inductive video_event : Type :=
  | StartServer                               (* dst.cmd("iperf -s -u -p 5004 &") *)
  | LogStart (q : quality) (bitrate : Q)
  | SendStream (bitrate : Q) (seconds : Z)    (* src.sendCmd("iperf -c ... -u -b {bitrate}M -t {duration} -p 5004") *)
  | LogChange (q : quality) (bitrate : Q)
  | WaitOutput                                (* src.waitOutput() *)
  | KillServer.                               (* dst.cmd("killall iperf 2>/dev/null") *)

Definition video_test (duration : Z) (o : video_obs) : bool :=
  negb (Qle_bool (inject_Z duration) (v_elapsed o)) && negb (v_stop_set o).

(** [random.random() < 0.1]. *)
Definition changes_quality (o : video_obs) : bool :=
  negb (Qle_bool (1 # 10) (v_random o)).

Fixpoint video_loop (duration : Z) (q : quality) (events : list video_event)
    (trace : list video_obs) : option (list video_event) :=
  match trace with
  | [] => None
  | o :: rest =>
      if video_test duration o
      then if changes_quality o
           then let q := v_choice o in
                video_loop duration q (events ++ [LogChange q (bitrates q)]) rest
           else video_loop duration q events rest
      else Some events
  end.

Definition generate_video_traffic (duration : Z) (trace : list video_obs)
  : option (list video_event) :=
  let quality := Q720p in
  let bitrate := bitrates quality in
  events ← video_loop duration quality
              [StartServer; LogStart quality bitrate; SendStream bitrate duration]
              trace;
  Some (events ++ [WaitOutput; KillServer]).

(** The commands among the events: what reaches the two hosts. *)
Definition is_command (e : video_event) : bool :=
  match e with
  | StartServer | SendStream _ _ | WaitOutput | KillServer => true
  | LogStart _ _ | LogChange _ _ => false
  end.

(** What one evaluation of the loop test of [generate_web_traffic] observes,
    with the two [random.randint] draws of the body. *)
Record web_obs : Type := WebObs {
  w_elapsed : Q;
  w_stop_set : bool;
  request_size : Z;
  response_size : Z
}.

(** Everything [generate_web_traffic] does in its loop, in order. *)
Inductive web_event : Type :=
  | Ping (size : Z)                 (* src.cmd(f"ping -c 1 -s {request_size} {dst.IP()}") *)
  | LogRequest (size : Z)
  | LogResponse (size : Z).

Definition web_test (duration : Z) (o : web_obs) : bool :=
  negb (Qle_bool (inject_Z duration) (w_elapsed o)) && negb (w_stop_set o).

Fixpoint web_loop (duration : Z) (events : list web_event)
    (trace : list web_obs) : option (list web_event) :=
  match trace with
  | [] => None
  | o :: rest =>
      if web_test duration o
      then web_loop duration
             (events ++ [Ping (request_size o); LogRequest (request_size o);
                         LogResponse (response_size o)]) rest
      else Some events
  end.

Definition generate_web_traffic (duration : Z) (trace : list web_obs)
  : option (list web_event) :=
  web_loop duration [] trace.

(** The target of a thread of [start_all_traffic]. *)
Inductive traffic_kind : Type :=
  | WebTraffic
  | VideoTraffic
  | IotTraffic
  | CrossTraffic (traffic_type : string).

(** A started thread: its target and the [args] it was given. *)
Record thread : Type := Thread {
  thread_target : traffic_kind;
  thread_src : string;
  thread_dst : string;
  thread_duration : Z
}.

(** The state of [start_all_traffic]: the threads in [self.traffic_threads],
    and the key of the [KeyError] that ended the call, if any. *)
Definition starting : Type := list thread * option string.

(** [t = threading.Thread(target=..., args=(self.hosts[a], self.hosts[b],
    duration)); t.start(); self.traffic_threads.append(t)], skipped once a
    [KeyError] was raised. *)
Definition start_thread (hosts : gmap string string) (kind : traffic_kind)
    (a b : string) (duration : Z) (st : starting) : starting :=
  match st with
  | (threads, Some key) => (threads, Some key)
  | (threads, None) =>
      match hosts !! a with
      | None => (threads, Some a)
      | Some src =>
          match hosts !! b with
          | None => (threads, Some b)
          | Some dst => (threads ++ [Thread kind src dst duration], None)
          end
      end
  end.

Definition start_all_traffic (hosts : gmap string string) (duration : Z)
    (traffic_threads : list thread) : starting :=
  let st := (traffic_threads, None) in
  let st := start_thread hosts WebTraffic "h1" "h2" duration st in
  let st := start_thread hosts VideoTraffic "h3" "h4" duration st in
  let st := start_thread hosts IotTraffic "h5" "h6" duration st in
  let st := start_thread hosts (CrossTraffic "web-to-video") "h1" "h3" duration st in
  start_thread hosts (CrossTraffic "video-to-iot") "h4" "h5" duration st.

End Workloads.

(** ** [run_experiment.py]: the names of the experiments *)

Module ExperimentRunner.

(** [f"{'qos' if qos_enabled else 'no_qos'}_{routing_type}"]. *)
Definition experiment_name (qos_enabled : bool) (routing_type : string) : string :=
  (if qos_enabled then "qos" else "no_qos") +:+ "_" +:+ routing_type.

(** [os.path.join(self.results_dir, experiment_name)] with [results_dir] the
    relative directory [results]; an experiment name starts with a letter. *)
Definition experiment_results_dir (qos_enabled : bool) (routing_type : string)
  : string :=
  "results" +:+ "/" +:+ experiment_name qos_enabled routing_type.

End ExperimentRunner.

(** ** More sample inputs *)

Module MoreSamples.
Import PyStr TrafficAnalyzer Samples Workloads.

(** Captures of two switches from one run. *)
Definition s1_capture : string * raw_summary :=
  ("s1_20250605_100000.pcap",
   RawSummary 120 100 12 8 (Some ("      3 10.0.0.1" +:+ nl))).

Definition s2_capture : string * raw_summary :=
  ("s2_20250605_100000.pcap",
   RawSummary 340 300 30 10
     (Some ("      4 10.0.0.1" +:+ nl +:+ "      9 10.0.0.3" +:+ nl))).

(** A capture whose listing [int] cannot read, and a file that is no
    capture. *)
Definition broken_capture : string * raw_summary :=
  ("s3_20250605_100000.pcap", RawSummary 60 50 5 5 (Some "many 10.0.0.5")).

Definition notes_file : string * raw_summary :=
  ("notes.txt", RawSummary 1 1 0 0 None).

(** A capture with hosts in the three octet ranges of the report. *)
Definition ranged_capture : string * raw_summary :=
  ("s1_20250605_120000.pcap",
   RawSummary 50 40 5 5
     (Some ("      5 10.0.1.1" +:+ nl +:+ "      6 10.0.2.1" +:+ nl
            +:+ "      7 10.0.3.1" +:+ nl +:+ "      8 10.0.1.2" +:+ nl))).

(** The host dict of [test_traffic_generator] and the one of the topology. *)
Definition two_hosts : gmap string string :=
  <["h2" := "h2"]> (<["h1" := "h1"]> ∅).

Definition six_hosts : gmap string string :=
  list_to_map ((λ h, (h, h)) <$> ["h1"; "h2"; "h3"; "h4"; "h5"; "h6"]).

End MoreSamples.

(** * Properties *)

(** ** Folding a list in any order *)

Lemma foldl_permutation_comm {A B} (f : B → A → B) :
  (∀ b x y, f (f b x) y = f (f b y) x) →
  ∀ l1 l2, l1 ≡ₚ l2 → ∀ b, foldl f b l1 = foldl f b l2.
Proof.
  intros Hcomm l1 l2 Hperm.
  induction Hperm as [|x l1 l2 _ IH|x y l|l1 l2 l3 _ IH1 _ IH2]; intros b; simpl.
  - reflexivity.
  - apply IH.
  - by rewrite Hcomm.
  - by rewrite IH1.
Qed.

(** ** Capture ingestion *)

Module IngestFacts.
Import PyStr TrafficAnalyzer.

Lemma dict_sum_empty : dict_sum ∅ = 0.
Proof. unfold dict_sum. by rewrite map_fold_empty. Qed.

Lemma dict_sum_insert (d : gmap string Z) k v :
  d !! k = None → dict_sum (<[k := v]> d) = dict_sum d + v.
Proof.
  intros Hk. unfold dict_sum.
  rewrite map_fold_insert_L; [done | intros; lia | done].
Qed.

Lemma protocol_counts_other raw :
  protocol_counts raw !! "Other"
  = Some (wc_all raw - (wc_tcp raw + wc_udp raw + wc_icmp raw)).
Proof.
  unfold protocol_counts. rewrite lookup_insert_eq.
  rewrite !dict_sum_insert, dict_sum_empty by by simplify_map_eq.
  apply f_equal. lia.
Qed.

Lemma protocol_counts_sum raw : dict_sum (protocol_counts raw) = wc_all raw.
Proof.
  unfold protocol_counts.
  rewrite (dict_sum_insert _ "Other") by by simplify_map_eq.
  lia.
Qed.

Lemma protocol_counts_dom raw :
  dom (protocol_counts raw) = ({["TCP"; "UDP"; "ICMP"; "Other"]} : gset string).
Proof. unfold protocol_counts. rewrite !dom_insert_L. set_solver. Qed.

(** What [analyze_pcap] returns is fixed by the parse of the listing. *)
Lemma analyze_pcap_Ok pcap raw r :
  analyze_pcap pcap raw = Ok r →
  total_packets r = wc_all raw
  ∧ protocols r = protocol_counts raw
  ∧ parse_host_traffic (src_listing raw) = Ok (host_traffic r)
  ∧ filename r = basename pcap.
Proof.
  unfold analyze_pcap.
  destruct (parse_host_traffic (src_listing raw)) as [m|e]; simpl; [|done].
  by intros [= <-].
Qed.

Lemma analyze_pcap_parsed pcap raw m :
  parse_host_traffic (src_listing raw) = Ok m →
  analyze_pcap pcap raw
  = Ok (CaptureRecord (wc_all raw) (protocol_counts raw) m (basename pcap)).
Proof. unfold analyze_pcap. by intros ->. Qed.

(** An invariant of the address map that the assignment to [sent] keeps
    is kept by the whole loop. *)
Lemma host_line_invariant (I : gmap string traffic → Prop) :
  (∀ m ip count, in_address_space ip = true → I m → I (set_sent ip count m)) →
  ∀ line m m', I m → host_line m line = Ok m' → I m'.
Proof.
  intros Hset line m m' Hm. unfold host_line.
  destruct line as [|a line]; [by intros [= <-]|].
  destruct (split_ws (strip (String a line))) as [|c [|ip [|? ?]]];
    try by intros [= <-].
  destruct (int c) as [count|e]; simpl; [|done].
  destruct (in_address_space ip) eqn:Hip; intros [= <-]; auto.
Qed.

Lemma host_lines_invariant (I : gmap string traffic → Prop) :
  (∀ m ip count, in_address_space ip = true → I m → I (set_sent ip count m)) →
  ∀ lines m m', I m → host_lines m lines = Ok m' → I m'.
Proof.
  intros Hset lines.
  induction lines as [|line lines IH]; intros m m' Hm; simpl.
  - by intros [= <-].
  - destruct (host_line m line) as [m1|e] eqn:Hline; simpl; [|done].
    apply IH. by eapply host_line_invariant.
Qed.

Lemma parse_host_traffic_invariant (I : gmap string traffic → Prop) :
  I ∅ →
  (∀ m ip count, in_address_space ip = true → I m → I (set_sent ip count m)) →
  ∀ listing m, parse_host_traffic listing = Ok m → I m.
Proof.
  intros Hemp Hset [text|] m; simpl.
  - by apply host_lines_invariant.
  - by intros [= <-].
Qed.

(** The loop raises only where [int] does. *)
Lemma host_line_readable m line :
  count_readable line = true → ∃ m', host_line m line = Ok m'.
Proof.
  unfold count_readable, host_line.
  destruct line as [|a line]; [eauto|].
  destruct (split_ws (strip (String a line))) as [|c [|ip [|? ?]]]; eauto.
  destruct (int c) as [count|e]; [|done]. simpl.
  destruct (in_address_space ip); eauto.
Qed.

Lemma host_lines_readable lines :
  forallb count_readable lines = true → ∀ m, ∃ m', host_lines m lines = Ok m'.
Proof.
  induction lines as [|line lines IH]; simpl; intros Hall m; [eauto|].
  apply andb_prop in Hall as [Hline Hrest].
  destruct (host_line_readable m line Hline) as [m1 ->]. simpl. by apply IH.
Qed.

Lemma parse_host_traffic_readable listing :
  listing_readable listing = true → ∃ m, parse_host_traffic listing = Ok m.
Proof.
  destruct listing as [text|]; simpl; [|eauto].
  intros H. by apply host_lines_readable.
Qed.

Lemma set_sent_inside_only m ip count :
  in_address_space ip = true → inside_only m → inside_only (set_sent ip count m).
Proof.
  intros Hip Hm ip' Hip'. unfold set_sent.
  rewrite lookup_insert_ne by congruence. by apply Hm.
Qed.

Lemma set_sent_nothing_received m ip count :
  nothing_received m → nothing_received (set_sent ip count m).
Proof.
  intros Hm ip' t. unfold set_sent.
  destruct (decide (ip = ip')) as [<-|Hne].
  - rewrite lookup_insert_eq. intros [= <-]. simpl.
    destruct (m !! ip) as [t0|] eqn:Hlook; simpl; [by eapply Hm|done].
  - rewrite lookup_insert_ne by done. apply Hm.
Qed.

End IngestFacts.

(** ** Aggregation *)

Module AggregateFacts.
Import PyStr TrafficAnalyzer IngestFacts.

Lemma add_protocols_lookup (acc d : gmap string Z) k :
  add_protocols acc d !! k
  = match d !! k with
    | Some count => Some (default 0 (acc !! k) + count)
    | None => acc !! k
    end.
Proof.
  unfold add_protocols. revert k.
  apply (map_fold_weak_ind (λ r (m : gmap string Z), ∀ k,
    r !! k = match m !! k with
             | Some count => Some (default 0 (acc !! k) + count)
             | None => acc !! k
             end)).
  - intros k. by rewrite lookup_empty.
  - intros i x m r Hi IH k. destruct (decide (i = k)) as [->|Hne].
    + rewrite !lookup_insert_eq, IH, Hi. done.
    + rewrite !lookup_insert_ne by done. apply IH.
Qed.

Lemma add_protocols_comm (acc d1 d2 : gmap string Z) :
  add_protocols (add_protocols acc d1) d2
  = add_protocols (add_protocols acc d2) d1.
Proof.
  apply map_eq. intros k. rewrite !add_protocols_lookup.
  destruct (d1 !! k) as [c1|], (d2 !! k) as [c2|]; simpl; try done.
  apply f_equal. lia.
Qed.

(** The protocol totals do not depend on the order of the records. *)
Lemma protocol_chart_permutation rs rs' :
  rs ≡ₚ rs' → generate_protocol_chart rs = generate_protocol_chart rs'.
Proof.
  intros Hperm. unfold generate_protocol_chart.
  apply foldl_permutation_comm; [|done].
  intros b x y. apply add_protocols_comm.
Qed.

Lemma add_traffic_lookup (acc d : gmap string traffic) h :
  add_traffic acc d !! h
  = match d !! h with
    | Some t =>
        let cur := default default_traffic (acc !! h) in
        Some (Traffic (sent cur + sent t) (received cur + received t))
    | None => acc !! h
    end.
Proof.
  unfold add_traffic. revert h.
  apply (map_fold_weak_ind (λ r (m : gmap string traffic), ∀ h,
    r !! h = match m !! h with
             | Some t =>
                 let cur := default default_traffic (acc !! h) in
                 Some (Traffic (sent cur + sent t) (received cur + received t))
             | None => acc !! h
             end)).
  - intros h. by rewrite lookup_empty.
  - intros i x m r Hi IH h. destruct (decide (i = h)) as [->|Hne].
    + rewrite !lookup_insert_eq, IH, Hi. done.
    + rewrite !lookup_insert_ne by done. apply IH.
Qed.

Lemma add_traffic_comm (acc d1 d2 : gmap string traffic) :
  add_traffic (add_traffic acc d1) d2 = add_traffic (add_traffic acc d2) d1.
Proof.
  apply map_eq. intros h. rewrite !add_traffic_lookup.
  destruct (d1 !! h) as [t1|], (d2 !! h) as [t2|]; simpl; try done.
  apply f_equal. f_equal; lia.
Qed.

(** The per-address totals do not depend on the order of the records. *)
Lemma host_matrix_permutation rs rs' :
  rs ≡ₚ rs' →
  generate_host_traffic_matrix rs = generate_host_traffic_matrix rs'.
Proof.
  intros Hperm. unfold generate_host_traffic_matrix.
  apply foldl_permutation_comm; [|done].
  intros b x y. apply add_traffic_comm.
Qed.

Lemma report_total_permutation rs rs' :
  rs ≡ₚ rs' → report_total_packets rs = report_total_packets rs'.
Proof.
  intros Hperm. unfold report_total_packets.
  apply foldl_permutation_comm; [|done]. intros; lia.
Qed.

(** The per-switch dict keeps, for every switch, the total of the last record
    of that switch. *)
Lemma traffic_by_switch_last rs r :
  generate_traffic_by_switch (rs ++ [r]) !! switch_name (filename r)
  = Some (total_packets r).
Proof.
  unfold generate_traffic_by_switch. rewrite foldl_app. simpl.
  apply lookup_insert_eq.
Qed.

Lemma add_traffic_nothing_received acc d :
  nothing_received acc → nothing_received d →
  nothing_received (add_traffic acc d).
Proof.
  intros Hacc Hd h t. rewrite add_traffic_lookup.
  destruct (d !! h) as [t1|] eqn:Hd1; [|apply Hacc].
  intros [= <-]. simpl. rewrite (Hd _ _ Hd1).
  destruct (acc !! h) as [t0|] eqn:Hacc0; simpl; [|done].
  rewrite (Hacc _ _ Hacc0). done.
Qed.

Lemma host_matrix_nothing_received rs :
  Forall (λ r, nothing_received (host_traffic r)) rs →
  nothing_received (generate_host_traffic_matrix rs).
Proof.
  unfold generate_host_traffic_matrix.
  assert (Hgen : ∀ acc, nothing_received acc →
            Forall (λ r, nothing_received (host_traffic r)) rs →
            nothing_received
              (foldl (λ host_data r, add_traffic host_data (host_traffic r)) acc rs)).
  { induction rs as [|r rs IH]; intros acc Hacc Hall; simpl; [done|].
    inversion Hall as [|? ? Hr Hrs]; subst.
    apply IH; [|done]. by apply add_traffic_nothing_received. }
  apply Hgen. intros h t. by rewrite lookup_empty.
Qed.

Lemma analyze_pcap_nothing_received pcap raw r :
  analyze_pcap pcap raw = Ok r → nothing_received (host_traffic r).
Proof.
  intros Hr. apply analyze_pcap_Ok in Hr as (_ & _ & Hparse & _).
  eapply (parse_host_traffic_invariant nothing_received); [| |exact Hparse].
  - intros h t. by rewrite lookup_empty.
  - intros m ip count _. apply set_sent_nothing_received.
Qed.

Lemma analyze_pcap_inside_only pcap raw r :
  analyze_pcap pcap raw = Ok r → inside_only (host_traffic r).
Proof.
  intros Hr. apply analyze_pcap_Ok in Hr as (_ & _ & Hparse & _).
  eapply (parse_host_traffic_invariant inside_only); [| |exact Hparse].
  - intros ip _. apply lookup_empty.
  - intros m ip count. apply set_sent_inside_only.
Qed.

(** Every record of [analyze_all_pcaps] comes out of [analyze_pcap]. *)
Lemma analyze_all_pcaps_elem pcap_dir listing r :
  r ∈ analyze_all_pcaps pcap_dir listing →
  ∃ pcap raw, analyze_pcap pcap raw = Ok r.
Proof.
  unfold analyze_all_pcaps. rewrite list_elem_of_omap.
  intros ([f raw] & _ & Hr). simpl in Hr.
  destruct (analyze_pcap (pcap_dir +:+ "/" +:+ f) raw) as [r'|e] eqn:Ha; [|done].
  injection Hr as ->. eauto.
Qed.

End AggregateFacts.

(** ** Rounding to binary64 *)

Module FloatFacts.
Import Binary64.

Lemma digits2_pos_size p : digits2_pos p = Pos.size p.
Proof. induction p as [p IH|p IH|]; simpl; by rewrite ?IH. Qed.

Lemma Zdigits2_log2 m : 0 < m → Zdigits2 m = Z.log2 m + 1.
Proof.
  destruct m as [|p|p]; [lia| |lia]. intros _. simpl.
  rewrite digits2_pos_size. destruct p; simpl; lia.
Qed.

Lemma Zdigits2_nonneg m : 0 ≤ Zdigits2 m.
Proof. destruct m; simpl; lia. Qed.

Lemma Zdigits2_lt_pow2 m k : 0 ≤ m → 0 ≤ k → (Zdigits2 m ≤ k ↔ m < 2 ^ k).
Proof.
  intros Hm Hk. destruct (decide (m = 0)) as [->|Hne].
  - simpl. split; [intros _; by apply Z.pow_pos_nonneg|lia].
  - rewrite Zdigits2_log2 by lia. rewrite (Z.log2_lt_pow2 m k) by lia. lia.
Qed.

Lemma Zdigits2_lower m : 0 < m → 2 ^ (Zdigits2 m - 1) ≤ m.
Proof.
  intros Hm. rewrite Zdigits2_log2 by done.
  replace (Z.log2 m + 1 - 1) with (Z.log2 m) by lia. by apply Z.log2_spec.
Qed.

Lemma Zdigits2_shift m k :
  0 ≤ m → 0 ≤ k → 0 < m / 2 ^ k → Zdigits2 (m / 2 ^ k) ≤ Zdigits2 m - k.
Proof.
  intros Hm Hk Hpos.
  assert (Hpow : 0 < 2 ^ k) by by apply Z.pow_pos_nonneg.
  assert (Hle : 2 ^ k ≤ m).
  { destruct (decide (m < 2 ^ k)) as [Hlt|]; [|lia].
    rewrite Z.div_small in Hpos by lia. lia. }
  assert (Hd : k < Zdigits2 m).
  { destruct (decide (Zdigits2 m ≤ k)) as [Hdk|]; [|lia].
    apply Zdigits2_lt_pow2 in Hdk; lia. }
  apply Zdigits2_lt_pow2; [lia|lia|].
  apply Z.div_lt_upper_bound; [done|].
  rewrite <- Z.pow_add_r by lia.
  replace (k + (Zdigits2 m - k)) with (Zdigits2 m) by lia.
  apply Zdigits2_lt_pow2; lia.
Qed.

Lemma Zdigits2_succ m : 0 ≤ m → Zdigits2 (m + 1) ≤ Zdigits2 m + 1.
Proof.
  intros Hm. pose proof (Zdigits2_nonneg m).
  apply Zdigits2_lt_pow2; [lia|lia|].
  assert (m < 2 ^ Zdigits2 m) by (apply Zdigits2_lt_pow2; lia).
  rewrite Z.pow_add_r by lia. lia.
Qed.

Lemma Zdigits2_mono a b : 0 ≤ a ≤ b → Zdigits2 a ≤ Zdigits2 b.
Proof.
  intros [Ha Hab]. pose proof (Zdigits2_nonneg b).
  apply Zdigits2_lt_pow2; [lia|lia|].
  assert (b < 2 ^ Zdigits2 b) by (apply Zdigits2_lt_pow2; lia). lia.
Qed.

Lemma Zdigits2_mul a b : 0 ≤ a → 0 ≤ b → Zdigits2 (a * b) ≤ Zdigits2 a + Zdigits2 b.
Proof.
  intros Ha Hb. pose proof (Zdigits2_nonneg a). pose proof (Zdigits2_nonneg b).
  apply Zdigits2_lt_pow2; [lia|lia|].
  assert (a < 2 ^ Zdigits2 a) by (apply Zdigits2_lt_pow2; lia).
  assert (b < 2 ^ Zdigits2 b) by (apply Zdigits2_lt_pow2; lia).
  rewrite Z.pow_add_r by lia. nia.
Qed.

Lemma shr_1_m mrs : 0 ≤ shr_m mrs → shr_m (shr_1 mrs) = shr_m mrs / 2.
Proof.
  destruct mrs as [m r s]. simpl. intros Hm.
  rewrite <- Z.div2_div. by destruct m as [|[p|p|]|p].
Qed.

Lemma pow2_xO p : 2 ^ Z.pos p~0 = 2 ^ Z.pos p * 2 ^ Z.pos p.
Proof. rewrite Pos2Z.inj_xO, <- Z.pow_add_r by lia. f_equal. lia. Qed.

Lemma pow2_xI p : 2 ^ Z.pos p~1 = 2 * (2 ^ Z.pos p * 2 ^ Z.pos p).
Proof.
  rewrite Pos2Z.inj_xI, <- Z.pow_add_r, <- Z.pow_succ_r by lia. f_equal. lia.
Qed.

Lemma iter_pos_shr_1 p : ∀ mrs,
  0 ≤ shr_m mrs → shr_m (SpecFloat.iter_pos shr_1 p mrs) = shr_m mrs / 2 ^ Zpos p.
Proof.
  assert (Hdiv : ∀ m k, 0 ≤ m → 0 < k → 0 ≤ m / k).
  { intros. by apply Z.div_pos. }
  induction p as [p IH|p IH|]; intros mrs Hm; simpl.
  - assert (Hp : 0 < 2 ^ Z.pos p) by (apply Z.pow_pos_nonneg; lia).
    assert (H1 : 0 ≤ shr_m (shr_1 mrs))
      by (rewrite shr_1_m by done; apply Hdiv; lia).
    rewrite IH; [|rewrite IH by done; by apply Hdiv].
    rewrite IH, shr_1_m, pow2_xI by done.
    by rewrite !Z.div_div by lia.
  - assert (Hp : 0 < 2 ^ Z.pos p) by (apply Z.pow_pos_nonneg; lia).
    rewrite IH; [|rewrite IH by done; by apply Hdiv].
    rewrite IH, pow2_xO by done.
    by rewrite Z.div_div by lia.
  - by rewrite shr_1_m.
Qed.

Lemma shr_record_of_loc_m m l : shr_m (shr_record_of_loc m l) = m.
Proof. by destruct l as [|[]]. Qed.

(** What the shift to the exponent of the format does to a mantissa. *)
Lemma shr_fexp_spec m e l mrs e' :
  0 ≤ m →
  shr_fexp float_prec float_emax m e l = (mrs, e') →
  e' = Z.max e (fexp float_prec float_emax (Zdigits2 m + e))
  ∧ shr_m mrs = m / 2 ^ (e' - e).
Proof.
  intros Hm. unfold shr_fexp, shr.
  destruct (fexp float_prec float_emax (Zdigits2 m + e) - e) as [|n|n] eqn:Hn;
    intros [= <- <-].
  - split; [lia|]. rewrite shr_record_of_loc_m.
    replace (e - e) with 0 by lia. by rewrite Z.div_1_r.
  - split; [lia|]. rewrite iter_pos_shr_1 by by rewrite shr_record_of_loc_m.
    rewrite shr_record_of_loc_m. f_equal. f_equal. lia.
  - split; [lia|]. rewrite shr_record_of_loc_m.
    replace (e - e) with 0 by lia. by rewrite Z.div_1_r.
Qed.

Lemma round_nearest_even_bounds m l :
  0 ≤ m → 0 ≤ round_nearest_even m l ≤ m + 1.
Proof.
  intros Hm. destruct l as [|[]]; simpl; try lia.
  destruct (Z.even m); lia.
Qed.

(** A rounded value is zero or finite, never a NaN, and finite below the
    overflow threshold. *)
Lemma binary_round_aux_not_nan sx mx ex lx :
  0 ≤ mx → binary_round_aux float_prec float_emax sx mx ex lx ≠ S754_nan.
Proof.
  intros Hm. unfold binary_round_aux.
  destruct (shr_fexp float_prec float_emax mx ex lx) as [mrs1 e1] eqn:H1.
  destruct (shr_fexp_spec _ _ _ _ _ Hm H1) as [He1 Hm1].
  pose proof (round_nearest_even_bounds (shr_m mrs1) (loc_of_shr_record mrs1)) as Hr.
  assert (Hm1' : 0 ≤ shr_m mrs1).
  { rewrite Hm1. apply Z.div_pos; [done|]. apply Z.pow_pos_nonneg; lia. }
  specialize (Hr Hm1').
  destruct (shr_fexp _ _ (round_nearest_even _ _) e1 loc_Exact) as [mrs2 e2] eqn:H2.
  destruct (shr_fexp_spec _ _ _ _ _ (proj1 Hr) H2) as [He2 Hm2].
  assert (0 ≤ shr_m mrs2).
  { rewrite Hm2. apply Z.div_pos; [lia|]. apply Z.pow_pos_nonneg; lia. }
  destruct (shr_m mrs2); [done| |lia].
  by destruct (e2 <=? float_emax - float_prec).
Qed.

Lemma binary_round_aux_finite sx mx ex lx bound :
  0 ≤ mx → ex ≤ 971 → Zdigits2 mx + ex ≤ bound → -1074 ≤ bound → bound ≤ 1023 →
  finite_below (bound + 1) (binary_round_aux float_prec float_emax sx mx ex lx).
Proof.
  intros Hm Hex Hd Hlo Hhi. unfold binary_round_aux.
  destruct (shr_fexp float_prec float_emax mx ex lx) as [mrs1 e1] eqn:H1.
  destruct (shr_fexp_spec _ _ _ _ _ Hm H1) as [He1 Hm1].
  assert (Hm1' : 0 ≤ shr_m mrs1).
  { rewrite Hm1. apply Z.div_pos; [done|]. apply Z.pow_pos_nonneg; lia. }
  pose proof (round_nearest_even_bounds (shr_m mrs1) (loc_of_shr_record mrs1) Hm1') as Hr.
  set (m1 := round_nearest_even (shr_m mrs1) (loc_of_shr_record mrs1)) in *.
  assert (Hfexp : ∀ d, fexp float_prec float_emax d = Z.max (d - 53) (-1074)).
  { intros d. reflexivity. }
  rewrite Hfexp in He1.
  assert (Hd1 : Zdigits2 (shr_m mrs1) + e1 ≤ bound).
  { pose proof (Zdigits2_nonneg mx) as Hdm.
    destruct (decide (shr_m mrs1 = 0)) as [Hz|Hne].
    - rewrite Hz. change (Zdigits2 0) with 0.
      destruct (decide (e1 = ex)) as [Heq|Hlt]; [|lia].
      rewrite Heq, Z.sub_diag, Z.div_1_r in Hm1.
      rewrite <- Hm1, Hz in Hd. change (Zdigits2 0) with 0 in Hd. lia.
    - pose proof (Zdigits2_shift mx (e1 - ex) Hm) as Hs.
      rewrite <- Hm1 in Hs. lia. }
  assert (Hd2 : Zdigits2 m1 + e1 ≤ bound + 1).
  { pose proof (Zdigits2_mono m1 (shr_m mrs1 + 1)) as Hmono.
    pose proof (Zdigits2_succ (shr_m mrs1) Hm1'). lia. }
  destruct (shr_fexp _ _ m1 e1 loc_Exact) as [mrs2 e2] eqn:H2.
  destruct (shr_fexp_spec _ _ _ _ _ (proj1 Hr) H2) as [He2 Hm2].
  assert (He1' : e1 ≤ 971) by lia.
  rewrite Hfexp in He2.
  assert (He2' : e2 ≤ 971) by lia.
  assert (Hm2nn : 0 ≤ shr_m mrs2).
  { rewrite Hm2. apply Z.div_pos; [lia|]. apply Z.pow_pos_nonneg; lia. }
  assert (Hd3 : 0 < shr_m mrs2 → Zdigits2 (shr_m mrs2) + e2 ≤ bound + 1).
  { intros Hpos. pose proof (Zdigits2_shift m1 (e2 - e1) (proj1 Hr)) as Hs.
    rewrite <- Hm2 in Hs. lia. }
  destruct (shr_m mrs2) as [|m2|m2]; simpl; [done| |lia].
  replace (e2 <=? float_emax - float_prec) with true
    by (symmetry; apply Z.leb_le; unfold float_emax, float_prec; lia).
  simpl. split; [|done]. apply Hd3. lia.
Qed.
Lemma finite_below_weaken b1 b2 x : b1 ≤ b2 → finite_below b1 x → finite_below b2 x.
Proof. destruct x; simpl; try done. lia. Qed.

Lemma finite_below_is_finite b x : finite_below b x → is_finite x = true.
Proof. by destruct x. Qed.

(** The quotient and location that the division hands to the rounding. *)
Lemma div_core_bounds a b q e l :
  0 < a → 0 < b →
  SFdiv_core_binary float_prec float_emax a 0 b 0 = (q, e, l) →
  0 ≤ q ∧ e ≤ 0 ∧ Zdigits2 q + e ≤ Z.max (Zdigits2 a - Zdigits2 b + 1) 0.
Proof.
  intros Ha Hb. unfold SFdiv_core_binary.
  set (e' := Z.min (fexp float_prec float_emax (Zdigits2 a + 0 - (Zdigits2 b + 0))) (0 - 0)).
  assert (He' : e' ≤ 0) by (unfold e'; lia).
  set (m' := match 0 - 0 - e' with
             | 0 => a
             | Z.pos _ => Z.shiftl a (0 - 0 - e')
             | Z.neg _ => 0
             end).
  assert (Hm' : m' = a * 2 ^ (- e')).
  { unfold m'. replace (0 - 0 - e') with (- e') by lia.
    destruct (- e') as [|p|p] eqn:Hs; [lia| |lia].
    rewrite Z.shiftl_mul_pow2; lia. }
  destruct (Z.div_eucl m' b) as [q' r] eqn:Hdiv. intros [= <- <- _].
  assert (Hq : q' = m' / b) by (unfold Z.div; by rewrite Hdiv).
  assert (Hpow : 0 < 2 ^ (- e')) by (apply Z.pow_pos_nonneg; lia).
  assert (Hq0 : 0 ≤ q') by (rewrite Hq; apply Z.div_pos; nia).
  split; [done|]. split; [done|].
  pose proof (Zdigits2_nonneg a) as Hda.
  assert (Hdb : 1 ≤ Zdigits2 b).
  { rewrite Zdigits2_log2 by done. pose proof (Z.log2_nonneg b). lia. }
  destruct (decide (q' = 0)) as [->|Hne]; [simpl; lia|].
  assert (Hqd : Zdigits2 q' ≤ Zdigits2 a - e' - Zdigits2 b + 1); [|lia].
  assert (Hlow : 2 ^ (Zdigits2 b - 1) ≤ b) by by apply Zdigits2_lower.
  assert (Hup : a < 2 ^ Zdigits2 a) by (apply Zdigits2_lt_pow2; lia).
  assert (Hpb : 0 < 2 ^ (Zdigits2 b - 1)) by (apply Z.pow_pos_nonneg; lia).
  assert (Hqle : q' * 2 ^ (Zdigits2 b - 1) < 2 ^ (Zdigits2 a - e')).
  { assert (q' * b ≤ m') by (rewrite Hq, Z.mul_comm; apply Z.mul_div_le; lia).
    assert (m' < 2 ^ Zdigits2 a * 2 ^ (- e')) by (rewrite Hm'; nia).
    assert (Hsplit : 2 ^ (Zdigits2 a - e') = 2 ^ Zdigits2 a * 2 ^ (- e')).
    { rewrite <- Z.pow_add_r by lia. apply f_equal. lia. }
    rewrite Hsplit. nia. }
  destruct (decide (0 ≤ Zdigits2 a - e' - Zdigits2 b + 1)) as [Hnn|Hneg].
  - apply Zdigits2_lt_pow2; [done|done|].
    assert (Hexact : 2 ^ (Zdigits2 a - e' - Zdigits2 b + 1) * 2 ^ (Zdigits2 b - 1)
                     = 2 ^ (Zdigits2 a - e')).
    { rewrite <- Z.pow_add_r by lia. apply f_equal. lia. }
    apply (Z.mul_lt_mono_pos_r (2 ^ (Zdigits2 b - 1))); [done|]. lia.
  - exfalso.
    assert (2 ^ (Zdigits2 a - e') < 2 ^ (Zdigits2 b - 1))
      by (apply Z.pow_lt_mono_r; lia).
    assert (1 ≤ q') by lia. nia.
Qed.

Lemma quotient_not_nan a b :
  b ≠ 0 → correctly_rounded_quotient a b ≠ S754_nan.
Proof.
  intros Hb. unfold correctly_rounded_quotient.
  destruct a as [|p|p] eqn:Ha; [done| |];
    (destruct (SFdiv_core_binary _ _ _ 0 (Z.abs b) 0) as [[q e] l] eqn:Hcore;
     apply binary_round_aux_not_nan;
     eapply (div_core_bounds _ (Z.abs b)); [| |exact Hcore]; simpl; lia).
Qed.

Lemma quotient_finite a b :
  b ≠ 0 → Z.abs a < 2 ^ 1000 →
  finite_below 1001 (correctly_rounded_quotient a b).
Proof.
  intros Hb Ha. unfold correctly_rounded_quotient.
  assert (Hgen : ∀ a', 0 < a' → a' < 2 ^ 1000 → ∀ s,
    finite_below 1001
      (let '(q, e, l) := SFdiv_core_binary float_prec float_emax a' 0 (Z.abs b) 0 in
       binary_round_aux float_prec float_emax s q e l)).
  { intros a' Hpos Hlt s.
    destruct (SFdiv_core_binary _ _ a' 0 (Z.abs b) 0) as [[q e] l] eqn:Hcore.
    destruct (div_core_bounds _ _ _ _ _ Hpos (proj2 (Z.abs_pos b) Hb) Hcore)
      as (Hq & He & Hd).
    assert (Hda : Zdigits2 a' ≤ 1000) by (apply Zdigits2_lt_pow2; lia).
    assert (Hdb : 0 ≤ Zdigits2 (Z.abs b)) by apply Zdigits2_nonneg.
    assert (Hdb1 : 1 ≤ Zdigits2 (Z.abs b)).
    { rewrite Zdigits2_log2 by lia. pose proof (Z.log2_nonneg (Z.abs b)). lia. }
    eapply finite_below_weaken;
      [|apply (binary_round_aux_finite s q e l
                 (Z.max (Zdigits2 a' - Zdigits2 (Z.abs b) + 1) 0))]; lia. }
  destruct a as [|p|p]; [done| |].
  - apply (Hgen (Z.pos p)); simpl in *; lia.
  - apply (Hgen (Z.pos p)); simpl in *; lia.
Qed.

Lemma float_100_value : float_100 = S754_finite false 7036874417766400 (-46).
Proof. reflexivity. Qed.

Lemma float_of_int_100 : float_of_int 100 = Ok float_100.
Proof. reflexivity. Qed.

Lemma times_hundred_finite x :
  finite_below 1001 x → finite_below 1009 (float_mul x float_100).
Proof.
  rewrite float_100_value. destruct x as [s| | |s m e]; simpl; try done.
  intros [Hd He].
  apply (binary_round_aux_finite _ _ _ _ 1008); try lia.
  assert (Hmul : Zdigits2 (Z.pos m * 7036874417766400)
                 ≤ Zdigits2 (Z.pos m) + Zdigits2 7036874417766400)
    by (apply Zdigits2_mul; lia).
  change (Zdigits2 7036874417766400) with 53 in Hmul.
  change (Z.pos (m * 7036874417766400)) with (Z.pos m * 7036874417766400).
  change (Z.pos (digits2_pos m)) with (Zdigits2 (Z.pos m)) in Hd. lia.
Qed.

Lemma times_hundred_not_nan x :
  x ≠ S754_nan → float_mul x float_100 ≠ S754_nan.
Proof.
  rewrite float_100_value. intros Hnan.
  destruct x as [s|s| |s m e]; simpl; [done|done|done|].
  apply binary_round_aux_not_nan. lia.
Qed.

(** What [float_truediv] returns is the rounded quotient, and is finite. *)
Lemma float_truediv_Ok a b q :
  float_truediv a b = Ok q →
  b ≠ 0 ∧ q = correctly_rounded_quotient a b ∧ is_finite q = true.
Proof.
  unfold float_truediv. destruct (b =? 0) eqn:Hb; [done|].
  pose proof (quotient_not_nan a b) as Hnan.
  destruct (correctly_rounded_quotient a b) as [s|s| |s m e]; try done;
    intros [= <-]; (split; [lia|done]) || (exfalso; apply Hnan; [lia|done]).
Qed.

Lemma float_truediv_in_range a b :
  b ≠ 0 → Z.abs a < 2 ^ 1000 →
  float_truediv a b = Ok (correctly_rounded_quotient a b)
  ∧ finite_below 1001 (correctly_rounded_quotient a b).
Proof.
  intros Hb Ha. pose proof (quotient_finite a b Hb Ha) as Hfin.
  split; [|done]. unfold float_truediv.
  destruct (b =? 0) eqn:Hz; [lia|].
  by destruct (correctly_rounded_quotient a b).
Qed.

End FloatFacts.

(** ** The statements of the specification: capture ingestion *)

Module IngestClaims.
Import PyStr TrafficAnalyzer IngestFacts AggregateFacts Samples.

(** C2, as the specification states it, fails: for the counts TCP 50, UDP 30,
    ICMP 5 and a total of 80 frames, [analyze_pcap] returns a record whose
    [Other] bucket is -5; it raises nothing. *)
Lemma inconsistent_counts_give_negative_other :
  ∃ r, analyze_pcap "pcaps/s1_20250605_100000.pcap" inconsistent_summary = Ok r
       ∧ protocols r !! "Other" = Some (-5).
Proof.
  eexists. split; [reflexivity|]. simpl. vm_compute. reflexivity.
Qed.

(** C2, amended: whenever the address listing is readable, ingestion succeeds
    and the [Other] bucket is the total minus the TCP, UDP and ICMP counts; it
    is non-negative exactly when these three counts sum to at most the total.
    No check of the counts takes place and no error is raised for them. *)
Theorem other_bucket_is_remainder pcap raw :
  listing_readable (src_listing raw) = true →
  ∃ r other,
    analyze_pcap pcap raw = Ok r
    ∧ protocols r !! "Other" = Some other
    ∧ other = wc_all raw - (wc_tcp raw + wc_udp raw + wc_icmp raw)
    ∧ (0 ≤ other ↔ wc_tcp raw + wc_udp raw + wc_icmp raw ≤ wc_all raw).
Proof.
  intros Hread.
  destruct (parse_host_traffic_readable _ Hread) as [m Hm].
  eexists _, _. split; [by apply analyze_pcap_parsed|].
  simpl. split; [apply protocol_counts_other|]. split; [done|lia].
Qed.

Lemma other_bucket_is_remainder_witness :
  ∃ r, analyze_pcap "pcaps/s1_20250605_100000.pcap" consistent_summary = Ok r
       ∧ protocols r !! "Other" = Some 15.
Proof.
  destruct (other_bucket_is_remainder "pcaps/s1_20250605_100000.pcap"
              consistent_summary eq_refl) as (r & other & Hr & Hother & Heq & _).
  exists r. split; [exact Hr|]. rewrite Hother, Heq. reflexivity.
Defined.

(** C9: the protocol map of every record that ingestion produces has exactly
    the keys TCP, UDP, ICMP and Other, and its values sum to the record's
    total frame count. *)
Theorem protocols_partition_total pcap raw r :
  analyze_pcap pcap raw = Ok r →
  dom (protocols r) = ({["TCP"; "UDP"; "ICMP"; "Other"]} : gset string)
  ∧ dict_sum (protocols r) = total_packets r.
Proof.
  intros Hr. apply analyze_pcap_Ok in Hr as (-> & -> & _ & _).
  split; [apply protocol_counts_dom | apply protocol_counts_sum].
Qed.

Lemma protocols_partition_total_witness :
  ∃ r, analyze_pcap "pcaps/s2_20250605_100000.pcap" mixed_summary = Ok r
       ∧ dom (protocols r) = ({["TCP"; "UDP"; "ICMP"; "Other"]} : gset string)
       ∧ dict_sum (protocols r) = total_packets r.
Proof.
  eexists. split; [reflexivity|].
  apply (protocols_partition_total "pcaps/s2_20250605_100000.pcap" mixed_summary).
  reflexivity.
Defined.

(** C8: ingestion of a readable listing succeeds whatever addresses it names,
    and no address outside the emulated network's space (the addresses that
    start with [10.0.]) is a key of the record's address map. *)
Theorem outside_addresses_ignored pcap raw :
  listing_readable (src_listing raw) = true →
  ∃ r, analyze_pcap pcap raw = Ok r
       ∧ ∀ ip, in_address_space ip = false → host_traffic r !! ip = None.
Proof.
  intros Hread.
  destruct (parse_host_traffic_readable _ Hread) as [m Hm].
  eexists. split; [by apply analyze_pcap_parsed|].
  eapply analyze_pcap_inside_only. by apply analyze_pcap_parsed.
Qed.

Lemma outside_addresses_ignored_witness :
  ∃ r, analyze_pcap "pcaps/s2_20250605_100000.pcap" mixed_summary = Ok r
       ∧ host_traffic r !! "192.168.1.9" = None.
Proof.
  destruct (outside_addresses_ignored "pcaps/s2_20250605_100000.pcap"
              mixed_summary eq_refl) as (r & Hr & Hout).
  exists r. split; [exact Hr|]. apply Hout. reflexivity.
Defined.

(** C10: in every record that ingestion produces the [received] counter of
    every address is zero, and so is every per-address [received] total of the
    host traffic matrix built from the records of [analyze_all_pcaps]. *)
Theorem received_always_zero :
  (∀ pcap raw r ip t,
     analyze_pcap pcap raw = Ok r → host_traffic r !! ip = Some t →
     received t = 0)
  ∧ (∀ pcap_dir listing host t,
       generate_host_traffic_matrix (analyze_all_pcaps pcap_dir listing) !! host
       = Some t →
       received t = 0).
Proof.
  split.
  - intros pcap raw r ip t Hr. by apply (analyze_pcap_nothing_received pcap raw r).
  - intros pcap_dir listing host t.
    apply (host_matrix_nothing_received (analyze_all_pcaps pcap_dir listing)).
    apply Forall_forall. intros r Hin.
    destruct (analyze_all_pcaps_elem _ _ _ Hin) as (pcap & raw & Hr).
    by eapply analyze_pcap_nothing_received.
Qed.

Lemma received_always_zero_witness :
  (∃ r t, analyze_pcap "pcaps/s2_20250605_100000.pcap" mixed_summary = Ok r
          ∧ host_traffic r !! "10.0.0.1" = Some t
          ∧ sent t = 3 ∧ received t = 0)
  ∧ (∃ t, generate_host_traffic_matrix
            (analyze_all_pcaps "pcaps" [first_run; second_run]) !! "10.0.0.1"
          = Some t
          ∧ sent t = 7 ∧ received t = 0).
Proof.
  destruct received_always_zero as [Hrecord Htotal]. split.
  - eexists _, (Traffic 3 0).
    assert (Hlook : host_traffic
              (CaptureRecord 120 (protocol_counts mixed_summary)
                 {["10.0.0.1" := Traffic 3 0]} "s2_20250605_100000.pcap")
              !! "10.0.0.1" = Some (Traffic 3 0)) by (vm_compute; reflexivity).
    split; [vm_compute; reflexivity|].
    split; [exact Hlook|]. split; [reflexivity|].
    eapply (Hrecord "pcaps/s2_20250605_100000.pcap" mixed_summary);
      [|exact Hlook]. vm_compute. reflexivity.
  - exists (Traffic 7 0).
    assert (Hlook : generate_host_traffic_matrix
              (analyze_all_pcaps "pcaps" [first_run; second_run]) !! "10.0.0.1"
              = Some (Traffic 7 0)) by (vm_compute; reflexivity).
    split; [exact Hlook|]. split; [reflexivity|].
    exact (Htotal _ _ _ _ Hlook).
Defined.

End IngestClaims.

(** ** The statements of the specification: aggregation and report *)

Module AggregateClaims.
Import Binary64 PyStr TrafficAnalyzer IngestFacts AggregateFacts FloatFacts Samples.

(** C1 at two captures of the same switch: the protocol totals and the
    per-address totals are the same in both orders, but the per-switch total
    is the total of whichever record comes last, 340 in one order and 120 in
    the other, since [generate_traffic_by_switch] assigns where the two other
    aggregations add. *)
Theorem traffic_by_switch_depends_on_order :
  let rs := analyze_all_pcaps "pcaps" [first_run; second_run] in
  let rs' := analyze_all_pcaps "pcaps" [second_run; first_run] in
  rs ≡ₚ rs'
  ∧ generate_protocol_chart rs = generate_protocol_chart rs'
  ∧ generate_host_traffic_matrix rs = generate_host_traffic_matrix rs'
  ∧ generate_traffic_by_switch rs = {["s1" := 340]}
  ∧ generate_traffic_by_switch rs' = {["s1" := 120]}.
Proof.
  intros rs rs'.
  assert (Hperm : rs ≡ₚ rs') by (vm_compute; apply perm_swap).
  split; [exact Hperm|].
  split; [by apply protocol_chart_permutation|].
  split; [by apply host_matrix_permutation|].
  split; vm_compute; reflexivity.
Qed.

(** C4, as the specification states it, fails.  The line written for a
    protocol of a capture without frames (count 0 of total 0) is, character
    for character, the line of a protocol absent from a capture of 7 frames:
    nothing in it marks the missing base.  And the percentage is not kept
    from infinity or from raising: a count of 10 to the 307 in a total of 1
    gives the float [inf], written [inf%], and a count of 10 to the 400
    raises [OverflowError] in the division. *)
Lemma percentage_unflagged_and_unbounded :
  report_protocol_line 0 ("TCP", 0)
  = Ok ("    TCP: 0 (0.0%)" +:+ String "010" EmptyString)
  ∧ report_protocol_line 7 ("TCP", 0)
    = Ok ("    TCP: 0 (0.0%)" +:+ String "010" EmptyString)
  ∧ percentage (10 ^ 307) 1 = Ok (PyFloat (S754_infinity false))
  ∧ format_num_1f (PyFloat (S754_infinity false)) = Ok "inf"
  ∧ percentage (10 ^ 400) 1 = Raise OverflowError.
Proof. repeat split; vm_compute; reflexivity. Qed.

(** C4, amended: the percentage never raises [ZeroDivisionError] and is never
    a NaN.  When the total is not positive it is the [int] 0.  When the total
    is positive and the count is below 2 to the 1000 in magnitude, it is a
    finite float: the float nearest to [count / total], times [100.0]. *)
Theorem percentage_guarded count total :
  percentage count total ≠ Raise ZeroDivisionError
  ∧ percentage count total ≠ Ok (PyFloat S754_nan)
  ∧ (total ≤ 0 → percentage count total = Ok (PyInt 0))
  ∧ (0 < total → Z.abs count < 2 ^ 1000 →
     ∃ x, percentage count total = Ok (PyFloat x)
          ∧ x = float_mul (correctly_rounded_quotient count total) float_100
          ∧ is_finite x = true).
Proof.
  unfold percentage. rewrite float_of_int_100.
  destruct (0 <? total) eqn:Hpos.
  - split; [|split; [|split]].
    + destruct (float_truediv count total) as [q|e] eqn:Hq; [done|].
      unfold float_truediv in Hq. destruct (total =? 0) eqn:Hz; [lia|].
      revert Hq. by destruct (correctly_rounded_quotient count total);
        intros [= <-].
    + destruct (float_truediv count total) as [q|e] eqn:Hq; [|done].
      apply float_truediv_Ok in Hq as (_ & _ & Hfin). simpl.
      intros [= Hnan]. apply (times_hundred_not_nan q); [|done].
      by destruct q.
    + lia.
    + intros _ Hcount.
      destruct (float_truediv_in_range count total) as [-> Hfin]; [lia|done|].
      eexists. split; [reflexivity|]. split; [done|].
      eapply finite_below_is_finite, times_hundred_finite, Hfin.
  - split; [done|]. split; [done|]. split; [done|lia].
Qed.

Lemma percentage_guarded_witness :
  percentage 0 0 = Ok (PyInt 0)
  ∧ ∃ x, percentage 1 3 = Ok (PyFloat x)
         ∧ x = float_mul (correctly_rounded_quotient 1 3) float_100
         ∧ is_finite x = true.
Proof.
  split.
  - apply (percentage_guarded 0 0). lia.
  - apply (percentage_guarded 1 3); [lia|]. simpl. lia.
Defined.

(** The lines of the report for 1 frame of 3, 1 of 8 and 3 of 16. *)
Example report_protocol_line_rounds :
  report_protocol_line 3 ("UDP", 1)
  = Ok ("    UDP: 1 (33.3%)" +:+ String "010" EmptyString)
  ∧ report_protocol_line 8 ("ICMP", 1)
    = Ok ("    ICMP: 1 (12.5%)" +:+ String "010" EmptyString)
  ∧ report_protocol_line 16 ("TCP", 3)
    = Ok ("    TCP: 3 (18.8%)" +:+ String "010" EmptyString)
  ∧ report_protocol_line 80 ("Other", -5)
    = Ok ("    Other: -5 (-6.2%)" +:+ String "010" EmptyString).
Proof. repeat split; vm_compute; reflexivity. Qed.

(** C5, as the specification states it, fails: a capture file whose name has
    no underscore is not rejected; its whole name is the key under which
    [generate_traffic_by_switch] files its total. *)
Lemma filename_without_underscore_grouped :
  switch_name "capture.pcap" = "capture.pcap"
  ∧ generate_traffic_by_switch
      (analyze_all_pcaps "pcaps" [("capture.pcap", consistent_summary)])
    = {["capture.pcap" := 100]}.
Proof. split; vm_compute; reflexivity. Qed.

Lemma split_head_no_sep sep s rest :
  has_char sep s = false →
  head (split sep (s +:+ String sep rest)) = Some s
  ∧ head (split sep s) = Some s.
Proof.
  induction s as [|a s IH]; simpl; intros Hno.
  - by rewrite Ascii.eqb_refl.
  - apply orb_false_elim in Hno as [Ha Hs].
    destruct (IH Hs) as [IH1 IH2]. rewrite Ha.
    destruct (split sep (s +:+ String sep rest)) as [|w ws];
      destruct (split sep s) as [|w' ws']; simpl in *; try done.
    by injection IH1 as ->; injection IH2 as ->.
Qed.

(** C5, amended: the capture point identifier is the text before the first
    underscore of the file name, and the whole file name when it has no
    underscore; no file name is rejected. *)
Theorem switch_name_before_first_underscore point rest :
  has_char "_" point = false →
  switch_name (point +:+ String "_" rest) = point
  ∧ switch_name point = point.
Proof.
  intros Hno. unfold switch_name.
  destruct (split_head_no_sep "_" point rest Hno) as [-> ->]. done.
Qed.

Lemma switch_name_before_first_underscore_witness :
  switch_name "s1_20250605_100000.pcap" = "s1" ∧ switch_name "s1" = "s1".
Proof.
  apply (switch_name_before_first_underscore "s1" "20250605_100000.pcap").
  reflexivity.
Defined.

End AggregateClaims.

(** ** The statements of the specification: shaping classes *)

Module ShapingClaims.
Import MultiServiceNetwork Samples.


Lemma elem_of_qos_loop intfList host_names root_rate classid rate ceil prio e :
  e ∈ qos_loop intfList host_names root_rate classid rate ceil prio ↔
  ∃ host intf,
    host ∈ host_names ∧ intf ∈ intfList host ∧ intf ≠ "lo"
    ∧ e = (host, intf, qos_commands intf root_rate classid rate ceil prio).
Proof.
  unfold qos_loop. rewrite list_elem_of_bind. split.
  - intros (host & He & Hhost). apply list_elem_of_bind in He as (intf & He & Hintf).
    case_bool_decide as Hlo; [|by apply not_elem_of_nil in He].
    apply list_elem_of_singleton in He. eauto 10.
  - intros (host & intf & Hhost & Hintf & Hlo & ->).
    exists host. split; [|done]. apply list_elem_of_bind.
    exists intf. split; [|done].
    rewrite bool_decide_eq_true_2 by done. by apply list_elem_of_singleton.
Qed.

(** A property of the entries of the three loops is a property of every
    entry of [apply_qos_policies]. *)
Lemma apply_qos_policies_Forall intfList
    (P : string * string * list tc_cmd → Prop) :
  (∀ host intf, host ∈ ["h1"; "h2"] →
     P (host, intf, qos_commands intf 100 "1:10" 80 100 1)) →
  (∀ host intf, host ∈ ["h3"; "h4"] →
     P (host, intf, qos_commands intf 1000 "1:20" 800 1000 2)) →
  (∀ host intf, host ∈ ["h5"; "h6"] →
     P (host, intf, qos_commands intf 100 "1:30" 50 100 3)) →
  Forall P (apply_qos_policies intfList).
Proof.
  intros Hweb Hvideo Hiot. unfold apply_qos_policies.
  rewrite !Forall_app, !Forall_forall.
  repeat split; intros e He;
    apply elem_of_qos_loop in He as (host & intf & Hhost & _ & _ & ->); auto.
Qed.

(** X19: Every interface other than [lo] of a host of the policy gets its
    commands. *)
Lemma apply_qos_policies_covers intfList host intf :
  host ∈ ["h1"; "h2"; "h3"; "h4"; "h5"; "h6"] →
  intf ∈ intfList host → intf ≠ "lo" →
  ∃ cmds, (host, intf, cmds) ∈ apply_qos_policies intfList.
Proof.
  intros Hhost Hintf Hlo. unfold apply_qos_policies.
  assert (Hin : ∀ names root_rate classid rate ceil prio, host ∈ names →
            (host, intf, qos_commands intf root_rate classid rate ceil prio)
              ∈ qos_loop intfList names root_rate classid rate ceil prio).
  { intros. apply elem_of_qos_loop. eauto 10. }
  repeat (apply elem_of_cons in Hhost as [->|Hhost]);
    [| | | | | |by apply not_elem_of_nil in Hhost].
  1,2: eexists; apply elem_of_app; left; apply Hin; set_solver.
  1,2: eexists; apply elem_of_app; right; apply elem_of_app; left;
       apply Hin; set_solver.
  1,2: eexists; apply elem_of_app; right; apply elem_of_app; right;
       apply Hin; set_solver.
Qed.





(** With the one interface that the emulator gives a host, the six hosts
    get their trees. *)
Example apply_qos_policies_one_interface :
  map (λ e, (e.1, shaping_tree_of e.2)) (apply_qos_policies one_interface)
  = [ ("h1", "h1-eth0",
       Some (ShapingTree (HtbClass "1:1" "1:" 100 100 None)
                         [HtbClass "1:10" "1:1" 80 100 (Some 1)]));
      ("h2", "h2-eth0",
       Some (ShapingTree (HtbClass "1:1" "1:" 100 100 None)
                         [HtbClass "1:10" "1:1" 80 100 (Some 1)]));
      ("h3", "h3-eth0",
       Some (ShapingTree (HtbClass "1:1" "1:" 1000 1000 None)
                         [HtbClass "1:20" "1:1" 800 1000 (Some 2)]));
      ("h4", "h4-eth0",
       Some (ShapingTree (HtbClass "1:1" "1:" 1000 1000 None)
                         [HtbClass "1:20" "1:1" 800 1000 (Some 2)]));
      ("h5", "h5-eth0",
       Some (ShapingTree (HtbClass "1:1" "1:" 100 100 None)
                         [HtbClass "1:30" "1:1" 50 100 (Some 3)]));
      ("h6", "h6-eth0",
       Some (ShapingTree (HtbClass "1:1" "1:" 100 100 None)
                         [HtbClass "1:30" "1:1" 50 100 (Some 3)])) ].
Proof. vm_compute. reflexivity. Qed.

(** The command lines are the ones of the source. *)
Example render_qos_commands :
  map render (qos_commands "h1-eth0" 100 "1:10" 80 100 1)
  = [ "tc qdisc add dev h1-eth0 root handle 1: htb default 30";
      "tc class add dev h1-eth0 parent 1: classid 1:1 htb rate 100mbit";
      "tc class add dev h1-eth0 parent 1:1 classid 1:10 htb rate 80mbit ceil 100mbit prio 1" ].
Proof. vm_compute. reflexivity. Qed.

End ShapingClaims.

(** ** The statements of the specification: the IoT workload *)

Module WorkloadClaims.
Import TrafficGenerator.

(** The loop counts the observations up to the first one that fails its
    test. *)
Lemma iot_loop_stops duration packet_count log o rest :
  loop_test duration o = false →
  iot_loop duration packet_count log (o :: rest) = Some (packet_count, log).
Proof. intros Htest. simpl. by rewrite Htest. Qed.

(** Whenever the first test of the loop fails, the call writes the total of 0
    packets and ends in a [ZeroDivisionError]. *)
Lemma no_tick_raises duration o rest :
  loop_test duration o = false →
  generate_iot_traffic duration (o :: rest)
  = Some ([TotalPackets 0], Raise ZeroDivisionError).
Proof.
  intros Htest. unfold generate_iot_traffic.
  rewrite (iot_loop_stops _ _ _ _ _ Htest). reflexivity.
Qed.

(** C6 at a duration of 0 seconds, and at a stop signal set before the first
    test: the loop body never runs, [packet_count] stays 0, and
    [duration/packet_count] raises [ZeroDivisionError] after the total was
    written; with one tick in 3 seconds the average interval is 3/1. *)
Theorem zero_ticks_raise_zero_division :
  generate_iot_traffic 0 [LoopObs 0 false 120]
  = Some ([TotalPackets 0], Raise ZeroDivisionError)
  ∧ generate_iot_traffic 60 [LoopObs 0 true 120]
    = Some ([TotalPackets 0], Raise ZeroDivisionError)
  ∧ generate_iot_traffic 3 [LoopObs 0 false 120; LoopObs (7 # 2) false 80]
    = Some ([SensorUpdate 1 120; TotalPackets 1;
             AverageInterval (inject_Z 3 / inject_Z 1)], Ok ()).
Proof. repeat split. Qed.

End WorkloadClaims.

(** ** Aggregation over any list of records *)

Module AggregateProperties.
Import PyStr TrafficAnalyzer AnalysisReport IngestFacts AggregateFacts.
Import Samples MoreSamples.

Lemma dict_sum_insert_add (d : gmap string Z) k v :
  dict_sum (<[k := default 0 (d !! k) + v]> d) = dict_sum d + v.
Proof.
  destruct (d !! k) as [old|] eqn:Hk; simpl.
  - rewrite <- (insert_delete_id d k old Hk) at 2.
    rewrite <- insert_delete_eq.
    rewrite !dict_sum_insert by apply lookup_delete_eq. lia.
  - by rewrite dict_sum_insert.
Qed.

Lemma dict_sum_add_protocols acc d :
  dict_sum (add_protocols acc d) = dict_sum acc + dict_sum d.
Proof.
  unfold add_protocols.
  apply (map_fold_weak_ind (λ r (m : gmap string Z),
           dict_sum r = dict_sum acc + dict_sum m)).
  - rewrite dict_sum_empty. lia.
  - intros i x m r Hi IH.
    rewrite dict_sum_insert_add, dict_sum_insert, IH by done. lia.
Qed.

Lemma protocol_chart_sum rs :
  Forall (λ r, dict_sum (protocols r) = total_packets r) rs →
  dict_sum (generate_protocol_chart rs) = report_total_packets rs.
Proof.
  unfold generate_protocol_chart, report_total_packets. intros Hall.
  assert (Hgen : ∀ acc n, dict_sum acc = n →
    dict_sum (foldl (λ total_protocols r, add_protocols total_protocols (protocols r))
                    acc rs)
    = foldl (λ acc r, acc + total_packets r) n rs).
  { induction Hall as [|r rs Hr _ IH]; intros acc n Hacc; simpl; [done|].
    apply IH. rewrite dict_sum_add_protocols, Hr, Hacc. done. }
  apply Hgen, dict_sum_empty.
Qed.

Lemma analyze_all_pcaps_partition pcap_dir listing :
  Forall (λ r, dict_sum (protocols r) = total_packets r)
         (analyze_all_pcaps pcap_dir listing).
Proof.
  apply Forall_forall. intros r Hin.
  destruct (analyze_all_pcaps_elem _ _ _ Hin) as (pcap & raw & Hr).
  apply analyze_pcap_Ok in Hr as (-> & -> & _ & _).
  apply protocol_counts_sum.
Qed.

(** X1: The protocol totals of the chart do not depend on the order in which the
    records are aggregated. *)
Theorem protocol_totals_order_independent rs rs' :
  rs ≡ₚ rs' → generate_protocol_chart rs = generate_protocol_chart rs'.
Proof. apply protocol_chart_permutation. Qed.

Lemma protocol_totals_order_independent_witness :
  generate_protocol_chart (analyze_all_pcaps "pcaps" [s1_capture; s2_capture])
  = generate_protocol_chart (analyze_all_pcaps "pcaps" [s2_capture; s1_capture]).
Proof.
  apply protocol_totals_order_independent. vm_compute. apply perm_swap.
Defined.

(** X2: The per-address totals of the host traffic matrix do not depend on the
    order in which the records are aggregated. *)
Theorem host_totals_order_independent rs rs' :
  rs ≡ₚ rs' →
  generate_host_traffic_matrix rs = generate_host_traffic_matrix rs'.
Proof. apply host_matrix_permutation. Qed.

Lemma host_totals_order_independent_witness :
  generate_host_traffic_matrix
    (analyze_all_pcaps "pcaps" [s1_capture; s2_capture])
  = generate_host_traffic_matrix
      (analyze_all_pcaps "pcaps" [s2_capture; s1_capture]).
Proof.
  apply host_totals_order_independent. vm_compute. apply perm_swap.
Defined.

(** X3: Over the records of [analyze_all_pcaps], the protocol totals of the chart
    add up to the total number of packets that the report gives. *)
Theorem protocol_totals_add_up pcap_dir listing :
  dict_sum (generate_protocol_chart (analyze_all_pcaps pcap_dir listing))
  = report_total_packets (analyze_all_pcaps pcap_dir listing).
Proof. apply protocol_chart_sum, analyze_all_pcaps_partition. Qed.

Lemma traffic_by_switch_snoc rs r :
  generate_traffic_by_switch (rs ++ [r])
  = <[switch_name (filename r) := total_packets r]> (generate_traffic_by_switch rs).
Proof. unfold generate_traffic_by_switch. by rewrite foldl_app. Qed.

Lemma traffic_by_switch_dom rs :
  dom (generate_traffic_by_switch rs)
  = (list_to_set (switch_names rs) : gset string).
Proof.
  induction rs as [|r rs IH] using rev_ind.
  - unfold generate_traffic_by_switch. simpl. by rewrite dom_empty_L.
  - unfold switch_names in *.
    rewrite traffic_by_switch_snoc, dom_insert_L, IH, fmap_app.
    rewrite list_to_set_app_L. simpl.
    rewrite (right_id_L ∅ (∪)). apply (comm_L (∪)).
Qed.

(** X4: The keys of the per-switch dict are the switch names of the records. *)
Theorem traffic_by_switch_keys rs :
  dom (generate_traffic_by_switch rs)
  = (list_to_set (switch_names rs) : gset string).
Proof. apply traffic_by_switch_dom. Qed.

Lemma traffic_by_switch_lookup rs r :
  NoDup (switch_names rs) → r ∈ rs →
  generate_traffic_by_switch rs !! switch_name (filename r)
  = Some (total_packets r).
Proof.
  induction rs as [|x rs IH] using rev_ind; intros Hnd Hin.
  - by apply not_elem_of_nil in Hin.
  - unfold switch_names in *.
    rewrite fmap_app in Hnd. apply NoDup_app in Hnd as (Hnd & Hfresh & _).
    rewrite traffic_by_switch_snoc.
    apply elem_of_app in Hin as [Hin|Hin].
    + rewrite lookup_insert_ne; [by apply IH|].
      intros Heq. apply (Hfresh (switch_name (filename r))).
      * apply list_elem_of_fmap. eauto.
      * rewrite <- Heq. simpl. apply list_elem_of_singleton. done.
    + apply list_elem_of_singleton in Hin as ->. apply lookup_insert_eq.
Qed.

(** X5: When no two records belong to the same switch, the total of every record
    is the entry of its switch in the per-switch dict. *)
Theorem one_capture_per_switch_total rs r :
  NoDup (switch_names rs) → r ∈ rs →
  generate_traffic_by_switch rs !! switch_name (filename r)
  = Some (total_packets r).
Proof. apply traffic_by_switch_lookup. Qed.

Lemma one_capture_per_switch_total_witness :
  generate_traffic_by_switch
    [CaptureRecord 120 ∅ ∅ "s1_20250605_100000.pcap";
     CaptureRecord 340 ∅ ∅ "s2_20250605_100000.pcap"] !! "s2"
  = Some 340.
Proof.
  apply (one_capture_per_switch_total
           [CaptureRecord 120 ∅ ∅ "s1_20250605_100000.pcap";
            CaptureRecord 340 ∅ ∅ "s2_20250605_100000.pcap"]
           (CaptureRecord 340 ∅ ∅ "s2_20250605_100000.pcap")).
  - compute_done.
  - repeat constructor.
Defined.

(** X6: When no two records belong to the same switch, the per-switch dict does
    not depend on the order of the records. *)
Theorem one_capture_per_switch_order_independent rs rs' :
  NoDup (switch_names rs) → rs ≡ₚ rs' →
  generate_traffic_by_switch rs = generate_traffic_by_switch rs'.
Proof.
  intros Hnd Hperm. apply map_eq. intros s.
  assert (Hnames : switch_names rs ≡ₚ switch_names rs')
    by (unfold switch_names; by rewrite Hperm).
  assert (Hnd' : NoDup (switch_names rs')) by by rewrite <- Hnames.
  destruct (decide (s ∈ switch_names rs)) as [Hin|Hout].
  - apply list_elem_of_fmap in Hin as (r & -> & Hr).
    rewrite !traffic_by_switch_lookup; try done. by rewrite <- Hperm.
  - assert (Hout' : s ∉ switch_names rs') by by rewrite <- Hnames.
    rewrite (proj1 (not_elem_of_dom _ s)), (proj1 (not_elem_of_dom _ s)); [done| |];
      rewrite traffic_by_switch_dom, elem_of_list_to_set; done.
Qed.

Lemma one_capture_per_switch_order_independent_witness :
  generate_traffic_by_switch
    [CaptureRecord 120 ∅ ∅ "s1_20250605_100000.pcap";
     CaptureRecord 340 ∅ ∅ "s2_20250605_100000.pcap"]
  = generate_traffic_by_switch
      [CaptureRecord 340 ∅ ∅ "s2_20250605_100000.pcap";
       CaptureRecord 120 ∅ ∅ "s1_20250605_100000.pcap"].
Proof.
  apply one_capture_per_switch_order_independent.
  - compute_done.
  - apply perm_swap.
Defined.

(** X7: When no two records belong to the same switch, the bars of the per-switch
    chart add up to the total number of packets of the report. *)
Theorem one_capture_per_switch_add_up rs :
  NoDup (switch_names rs) →
  dict_sum (generate_traffic_by_switch rs) = report_total_packets rs.
Proof.
  induction rs as [|r rs IH] using rev_ind; intros Hnd.
  - unfold generate_traffic_by_switch. simpl. apply dict_sum_empty.
  - unfold switch_names in *.
    rewrite fmap_app in Hnd. apply NoDup_app in Hnd as (Hnd & Hfresh & _).
    rewrite traffic_by_switch_snoc, dict_sum_insert.
    + rewrite IH by done. unfold report_total_packets. by rewrite foldl_app.
    + apply not_elem_of_dom. rewrite traffic_by_switch_dom, elem_of_list_to_set.
      unfold switch_names. intros Hin. apply (Hfresh _ Hin). simpl. by apply list_elem_of_singleton.
Qed.

Lemma one_capture_per_switch_add_up_witness :
  dict_sum (generate_traffic_by_switch
              [CaptureRecord 120 ∅ ∅ "s1_20250605_100000.pcap";
               CaptureRecord 340 ∅ ∅ "s2_20250605_100000.pcap"])
  = 460.
Proof.
  rewrite one_capture_per_switch_add_up; [reflexivity|]. compute_done.
Defined.

End AggregateProperties.

(** ** The host traffic matrix and the service totals *)

Module HostProperties.
Import PyStr TrafficAnalyzer AnalysisReport IngestFacts AggregateFacts.
Import Samples MoreSamples.

Lemma host_matrix_fold_None rs : ∀ acc host,
  foldl (λ host_data r, add_traffic host_data (host_traffic r)) acc rs !! host = None
  ↔ acc !! host = None ∧ Forall (λ r, host_traffic r !! host = None) rs.
Proof.
  induction rs as [|r rs IH]; intros acc host; simpl.
  - split; [by intros ->|by intros [? _]].
  - rewrite IH, add_traffic_lookup, Forall_cons.
    destruct (host_traffic r !! host) as [t|]; simpl; intuition congruence.
Qed.

(** X8: A host is missing from the host traffic matrix exactly when no record
    names it: hosts that were not seen are not filled in with zeros. *)
Theorem unseen_host_absent rs host :
  generate_host_traffic_matrix rs !! host = None
  ↔ Forall (λ r, host_traffic r !! host = None) rs.
Proof.
  unfold generate_host_traffic_matrix. rewrite host_matrix_fold_None.
  rewrite lookup_empty. intuition congruence.
Qed.

Lemma unseen_host_absent_witness :
  generate_host_traffic_matrix
    (analyze_all_pcaps "pcaps" [s1_capture; s2_capture]) !! "10.0.0.9"
  = None.
Proof.
  apply (proj2 (unseen_host_absent _ "10.0.0.9")).
  vm_compute. repeat constructor.
Defined.

Lemma host_matrix_fold_Some rs : ∀ acc host t,
  foldl (λ host_data r, add_traffic host_data (host_traffic r)) acc rs !! host
  = Some t →
  sent t = sent (default default_traffic (acc !! host))
           + foldr (λ r n, sent_of host r + n) 0 rs
  ∧ received t = received (default default_traffic (acc !! host))
                 + foldr (λ r n, received_of host r + n) 0 rs.
Proof.
  induction rs as [|r rs IH]; intros acc host t; simpl.
  - intros ->. simpl. lia.
  - intros Ht. apply IH in Ht as [Hs Hr]. rewrite Hs, Hr.
    rewrite add_traffic_lookup. unfold sent_of, received_of.
    destruct (host_traffic r !! host) as [t0|]; simpl; lia.
Qed.

(** X9: The entry of a host in the host traffic matrix holds the sum of the
    [sent] counters and the sum of the [received] counters that the records
    hold for the host. *)
Theorem host_totals_are_sums rs host t :
  generate_host_traffic_matrix rs !! host = Some t →
  sent t = foldr (λ r n, sent_of host r + n) 0 rs
  ∧ received t = foldr (λ r n, received_of host r + n) 0 rs.
Proof.
  unfold generate_host_traffic_matrix. intros Ht.
  apply host_matrix_fold_Some in Ht. by rewrite lookup_empty in Ht.
Qed.

Lemma host_totals_are_sums_witness :
  ∃ t, generate_host_traffic_matrix
         (analyze_all_pcaps "pcaps" [s1_capture; s2_capture]) !! "10.0.0.1"
       = Some t
       ∧ sent t = 7.
Proof.
  exists (Traffic 7 0).
  assert (Hlook : generate_host_traffic_matrix
            (analyze_all_pcaps "pcaps" [s1_capture; s2_capture]) !! "10.0.0.1"
            = Some (Traffic 7 0)) by (vm_compute; reflexivity).
  split; [exact Hlook|].
  rewrite (proj1 (host_totals_are_sums _ _ _ Hlook)). vm_compute. reflexivity.
Defined.

(** Two additions to the service totals commute. *)
Lemma service_step_comm (acc : gmap string Z) h1 t1 h2 t2 :
  let step := λ (host : string) (t : traffic) (acc : gmap string Z),
    match service_of host with
    | Some key => <[key := default 0 (acc !! key) + (sent t + received t)]> acc
    | None => acc
    end in
  step h1 t1 (step h2 t2 acc) = step h2 t2 (step h1 t1 acc).
Proof.
  simpl. destruct (service_of h1) as [k1|], (service_of h2) as [k2|]; try done.
  destruct (decide (k1 = k2)) as [->|Hne].
  - rewrite !lookup_insert_eq, !insert_insert_eq. simpl. f_equal. lia.
  - rewrite !lookup_insert_ne by done. by apply insert_insert_ne.
Qed.

Lemma add_service_traffic_comm acc d1 d2 :
  add_service_traffic (add_service_traffic acc d1) d2
  = add_service_traffic (add_service_traffic acc d2) d1.
Proof.
  unfold add_service_traffic.
  match goal with |- map_fold ?f _ _ = _ => set (step := f) end.
  apply (map_fold_comm_acc step (λ x, map_fold step x d1) acc d2).
  intros h2 t2 acc'. symmetry.
  apply (map_fold_comm_acc step (step h2 t2) acc' d1).
  intros h1 t1 acc''. apply (service_step_comm acc'' h1 t1 h2 t2).
Qed.

(** X10: The service totals of the report do not depend on the order of the
    records. *)
Theorem service_totals_order_independent rs rs' :
  rs ≡ₚ rs' → service_traffic rs = service_traffic rs'.
Proof.
  intros Hperm. unfold service_traffic.
  apply foldl_permutation_comm; [|done].
  intros b x y. apply add_service_traffic_comm.
Qed.

Lemma service_totals_order_independent_witness :
  service_traffic (analyze_all_pcaps "pcaps" [s1_capture; ranged_capture])
  = service_traffic (analyze_all_pcaps "pcaps" [ranged_capture; s1_capture]).
Proof.
  apply service_totals_order_independent. vm_compute. apply perm_swap.
Defined.

Lemma startswith_app p s : startswith p s = true → ∃ rest, s = p +:+ rest.
Proof.
  revert s. induction p as [|a p IH]; intros s; simpl.
  - by exists s.
  - destruct s as [|b s]; [done|].
    intros [Hab Hps]%andb_prop. apply Ascii.eqb_eq in Hab as ->.
    destruct (IH _ Hps) as [rest ->]. by exists rest.
Qed.

Lemma flat_address_no_service host :
  startswith "10.0.0." host = true → service_of host = None.
Proof. intros [rest ->]%startswith_app. reflexivity. Qed.

Lemma add_service_traffic_unchanged acc (d : gmap string traffic) :
  (∀ host t, d !! host = Some t → service_of host = None) →
  add_service_traffic acc d = acc.
Proof.
  unfold add_service_traffic.
  apply (map_fold_weak_ind (λ r (m : gmap string traffic),
           (∀ host t, m !! host = Some t → service_of host = None) → r = acc)).
  - done.
  - intros i x m r Hi IH Hall.
    rewrite (Hall i x) by apply lookup_insert_eq.
    apply IH. intros host t Hm. apply (Hall host t).
    rewrite lookup_insert_ne; [done|]. intros ->. congruence.
Qed.

(** X11: Hosts with the addresses of the topology, [10.0.0.x], are counted in no
    service: when every address of every record starts with [10.0.0.], the
    three service totals of the report stay 0. *)
Theorem flat_addresses_counted_in_no_service rs :
  Forall (λ r, ∀ host t, host_traffic r !! host = Some t →
                         startswith "10.0.0." host = true) rs →
  service_traffic rs = service_traffic_init.
Proof.
  unfold service_traffic. generalize service_traffic_init.
  induction rs as [|r rs IH]; intros acc Hall; simpl; [done|].
  apply Forall_cons in Hall as [Hr Hrs].
  rewrite add_service_traffic_unchanged; [by apply IH|].
  intros host t Ht. apply flat_address_no_service. by eapply Hr.
Qed.

Lemma flat_addresses_counted_in_no_service_witness :
  service_traffic (analyze_all_pcaps "pcaps" [s1_capture; s2_capture])
  = service_traffic_init.
Proof.
  apply flat_addresses_counted_in_no_service.
  assert (Hall : ∀ m : gmap string traffic,
            bool_decide (map_Forall (λ host _, startswith "10.0.0." host = true) m)
            = true →
            ∀ host t, m !! host = Some t → startswith "10.0.0." host = true).
  { intros m Hm%bool_decide_eq_true_1 host t Ht. exact (Hm host t Ht). }
  repeat constructor; apply Hall; vm_compute; reflexivity.
Defined.

(** With hosts in the three octet ranges, every host adds its [sent] and
    [received] counters to the total of its range. *)
Example service_traffic_ranged :
  let totals := service_traffic (analyze_all_pcaps "pcaps" [ranged_capture]) in
  totals !! "Web (10.0.1.x)" = Some 13
  ∧ totals !! "Video (10.0.2.x)" = Some 6
  ∧ totals !! "IoT (10.0.3.x)" = Some 7.
Proof. repeat split; vm_compute; reflexivity. Qed.

End HostProperties.

(** ** The analysis pipeline *)

Module PipelineProperties.
Import PyStr TrafficAnalyzer AnalysisReport IngestFacts AggregateFacts.
Import HostProperties Samples MoreSamples.

Lemma analyze_all_pcaps_app pcap_dir l1 l2 :
  analyze_all_pcaps pcap_dir (l1 ++ l2)
  = analyze_all_pcaps pcap_dir l1 ++ analyze_all_pcaps pcap_dir l2.
Proof. unfold analyze_all_pcaps. by rewrite filter_app, omap_app. Qed.

Lemma analyze_all_pcaps_cons pcap_dir f raw l :
  analyze_all_pcaps pcap_dir ((f, raw) :: l)
  = (if endswith ".pcap" f
     then match analyze_pcap (pcap_dir +:+ "/" +:+ f) raw with
          | Ok r => [r]
          | Raise _ => []
          end
     else [])
    ++ analyze_all_pcaps pcap_dir l.
Proof.
  unfold analyze_all_pcaps. rewrite filter_cons. simpl.
  destruct (endswith ".pcap" f) eqn:Hext.
  - rewrite decide_True by done. simpl.
    by destruct (analyze_pcap (pcap_dir +:+ "/" +:+ f) raw).
  - rewrite decide_False by done. done.
Qed.

(** X12: An entry of the directory that does not end in [.pcap], or whose analysis
    raises, is left out and changes nothing for the other captures. *)
Theorem unusable_entry_skipped pcap_dir l1 f raw l2 :
  endswith ".pcap" f = false
  ∨ (∃ e, analyze_pcap (pcap_dir +:+ "/" +:+ f) raw = Raise e) →
  analyze_all_pcaps pcap_dir (l1 ++ (f, raw) :: l2)
  = analyze_all_pcaps pcap_dir (l1 ++ l2).
Proof.
  intros Hskip. rewrite !analyze_all_pcaps_app, analyze_all_pcaps_cons.
  destruct Hskip as [->|[e ->]]; [done|].
  by destruct (endswith ".pcap" f).
Qed.

Lemma unusable_entry_skipped_witness :
  analyze_all_pcaps "pcaps" ([s1_capture] ++ notes_file :: [s2_capture])
  = analyze_all_pcaps "pcaps" ([s1_capture] ++ [s2_capture])
  ∧ analyze_all_pcaps "pcaps" ([s1_capture] ++ broken_capture :: [s2_capture])
    = analyze_all_pcaps "pcaps" ([s1_capture] ++ [s2_capture]).
Proof.
  split.
  - apply (unusable_entry_skipped "pcaps" [s1_capture] "notes.txt"
             (RawSummary 1 1 0 0 None) [s2_capture]).
    left. reflexivity.
  - apply (unusable_entry_skipped "pcaps" [s1_capture] "s3_20250605_100000.pcap"
             (RawSummary 60 50 5 5 (Some "many 10.0.0.5")) [s2_capture]).
    right. exists ValueError. reflexivity.
Defined.

(** X13: Every capture file with a readable listing gives one record, in the order
    of the directory listing, with the frame count of the file as its
    total. *)
Theorem one_record_per_readable_capture pcap_dir listing :
  Forall (λ f, endswith ".pcap" f.1 = true
               ∧ listing_readable (src_listing f.2) = true) listing →
  total_packets <$> analyze_all_pcaps pcap_dir listing
  = (λ f, wc_all f.2) <$> listing.
Proof.
  induction 1 as [|[f raw] listing [Hext Hread] _ IH]; [done|].
  rewrite analyze_all_pcaps_cons, fmap_app, IH. simpl in *. rewrite Hext.
  destruct (parse_host_traffic_readable _ Hread) as [m Hm].
  by rewrite (analyze_pcap_parsed _ _ _ Hm).
Qed.

Lemma one_record_per_readable_capture_witness :
  total_packets <$> analyze_all_pcaps "pcaps" [s1_capture; s2_capture]
  = [120; 340].
Proof.
  apply (one_record_per_readable_capture "pcaps" [s1_capture; s2_capture]).
  repeat constructor.
Defined.

Lemma host_lines_app l1 l2 : ∀ m,
  host_lines m (l1 ++ l2) = (m' ← host_lines m l1; host_lines m' l2).
Proof.
  induction l1 as [|line l1 IH]; intros m; simpl; [done|].
  destruct (host_line m line) as [m1|e]; simpl; [apply IH|done].
Qed.

(** X15: A line of the address listing that does not consist of exactly two
    fields is passed over: the address map, and whether the parse raises,
    are what they are without the line. *)
Theorem malformed_line_ignored m l1 line l2 :
  length (split_ws (strip line)) ≠ 2%nat →
  host_lines m (l1 ++ line :: l2) = host_lines m (l1 ++ l2).
Proof.
  intros Hfields. rewrite !host_lines_app.
  destruct (host_lines m l1) as [m1|e]; simpl; [|done].
  assert (Hline : host_line m1 line = Ok m1).
  { unfold host_line. destruct line as [|a line]; [done|].
    by destruct (split_ws (strip (String a line))) as [|c [|ip [|? ?]]]. }
  by rewrite Hline.
Qed.

Lemma malformed_line_ignored_witness :
  host_lines ∅ (["      3 10.0.0.1"] ++ "reading from file" :: ["      9 10.0.0.3"])
  = host_lines ∅ (["      3 10.0.0.1"] ++ ["      9 10.0.0.3"]).
Proof.
  apply (malformed_line_ignored ∅ ["      3 10.0.0.1"] "reading from file"
           ["      9 10.0.0.3"]).
  vm_compute. discriminate.
Defined.

Lemma protocol_chart_fold_Some rs k : ∀ acc,
  is_Some (acc !! k) →
  is_Some (foldl (λ total_protocols r, add_protocols total_protocols (protocols r))
                 acc rs !! k).
Proof.
  induction rs as [|r rs IH]; intros acc Hacc; simpl; [done|].
  apply IH. rewrite add_protocols_lookup.
  destruct (protocols r !! k); [by eexists|done].
Qed.

Lemma nothing_to_plot_false {V} (d : gmap string V) k :
  is_Some (d !! k) → nothing_to_plot d = false.
Proof.
  intros Hk. unfold nothing_to_plot.
  apply bool_decide_eq_false_2. by eapply map_size_ne_0_lookup_2.
Qed.

Lemma nothing_to_plot_true {V} (d : gmap string V) :
  nothing_to_plot d = true ↔ d = ∅.
Proof.
  unfold nothing_to_plot. rewrite bool_decide_eq_true.
  apply map_size_empty_iff.
Qed.

(** X16: Whenever some capture was analysed, neither
    [generate_protocol_chart] nor [generate_traffic_by_switch] takes its
    early return, the dicts they have aggregated not being empty: both go on
    to their plotting calls.  [generate_host_traffic_matrix] takes its early
    return exactly when no record names a host. *)
Theorem charts_early_returns pcap_dir listing :
  let results := analyze_all_pcaps pcap_dir listing in
  results ≠ [] →
  nothing_to_plot (generate_protocol_chart results) = false
  ∧ nothing_to_plot (generate_traffic_by_switch results) = false
  ∧ (nothing_to_plot (generate_host_traffic_matrix results) = true
     ↔ Forall (λ r, host_traffic r = ∅) results).
Proof.
  intros results Hne.
  destruct results as [|r rs] eqn:Hrs; [done|].
  assert (Hr : r ∈ analyze_all_pcaps pcap_dir listing).
  { fold results. rewrite Hrs. apply list_elem_of_here. }
  destruct (analyze_all_pcaps_elem _ _ _ Hr) as (pcap & raw & Hraw).
  apply analyze_pcap_Ok in Hraw as (_ & Hprot & _ & _).
  split; [|split].
  - apply (nothing_to_plot_false _ "TCP").
    unfold generate_protocol_chart. simpl. apply protocol_chart_fold_Some.
    rewrite add_protocols_lookup, Hprot. unfold protocol_counts.
    rewrite lookup_insert_ne, lookup_insert_ne, lookup_insert_ne,
      lookup_insert_eq by done. by eexists.
  - apply (nothing_to_plot_false _ (switch_name (filename r))).
    apply elem_of_dom.
    rewrite AggregateProperties.traffic_by_switch_dom, elem_of_list_to_set.
    unfold switch_names. apply list_elem_of_fmap. exists r.
    split; [done|apply list_elem_of_here].
  - rewrite nothing_to_plot_true, map_empty. split.
    + intros Hnone. apply Forall_forall. intros r' Hr'.
      apply map_empty. intros host.
      specialize (Hnone host).
      apply host_matrix_fold_None in Hnone as [_ Hall].
      rewrite Forall_forall in Hall. by apply Hall.
    + intros Hall host. apply host_matrix_fold_None.
      split; [apply lookup_empty|].
      eapply Forall_impl; [exact Hall|]. simpl. intros r' ->. apply lookup_empty.
Qed.

Lemma charts_early_returns_witness :
  let results := analyze_all_pcaps "pcaps" [s1_capture; notes_file; s2_capture] in
  nothing_to_plot (generate_protocol_chart results) = false
  ∧ nothing_to_plot (generate_traffic_by_switch results) = false
  ∧ (nothing_to_plot (generate_host_traffic_matrix results) = true
     ↔ Forall (λ r, host_traffic r = ∅) results).
Proof.
  apply (charts_early_returns "pcaps" [s1_capture; notes_file; s2_capture]).
  vm_compute. discriminate.
Defined.

End PipelineProperties.

(** ** From the capture of a switch to its bar in the chart *)

Module CaptureProperties.
Import PyStr TrafficAnalyzer AnalysisReport MultiServiceNetwork Captures.
Import IngestFacts AggregateFacts PipelineProperties Samples MoreSamples.

Lemma split_nonempty sep s : split sep s ≠ [].
Proof.
  destruct s as [|a s]; simpl; [done|].
  destruct (Ascii.eqb a sep); [done|]. by destruct (split sep s).
Qed.

Lemma split_app_sep sep a b :
  split sep (a +:+ String sep b) = split sep a ++ split sep b.
Proof.
  induction a as [|c a IH]; simpl.
  - by rewrite Ascii.eqb_refl.
  - destruct (Ascii.eqb c sep); [by rewrite IH|].
    rewrite IH. pose proof (split_nonempty sep a).
    by destruct (split sep a).
Qed.

Lemma split_no_sep sep s : has_char sep s = false → split sep s = [s].
Proof.
  induction s as [|c s IH]; simpl; [done|].
  intros [-> Hs]%orb_false_elim. by rewrite IH.
Qed.

Lemma has_char_app c a b :
  has_char c (a +:+ b) = has_char c a || has_char c b.
Proof.
  induction a as [|x a IH]; simpl; [done|]. by rewrite IH, orb_assoc.
Qed.

Lemma basename_join dir f :
  has_char "/" f = false → basename (dir +:+ "/" +:+ f) = f.
Proof.
  intros Hf. unfold basename.
  change (dir +:+ "/" +:+ f) with (dir +:+ String "/" f).
  rewrite split_app_sep, (split_no_sep _ f Hf). apply List.last_last.
Qed.

Lemma append_assoc (a b c : string) : (a +:+ b) +:+ c = a +:+ b +:+ c.
Proof.
  induction a as [|x a IH]; [done|].
  change (String x ((a +:+ b) +:+ c) = String x (a +:+ b +:+ c)).
  by rewrite IH.
Qed.

Lemma append_empty_r (a : string) : a +:+ EmptyString = a.
Proof.
  induction a as [|x a IH]; [done|].
  change (String x (a +:+ EmptyString) = String x a). by rewrite IH.
Qed.

Lemma rev_app_append s : ∀ acc,
  String.rev_app s acc = String.rev_app s EmptyString +:+ acc.
Proof.
  induction s as [|c s IH]; intros acc; simpl; [done|].
  rewrite (IH (String c acc)), (IH (String c EmptyString)).
  by rewrite append_assoc.
Qed.

Lemma rev_append a b : String.rev (a +:+ b) = String.rev b +:+ String.rev a.
Proof.
  unfold String.rev. induction a as [|c a IH]; simpl.
  - by rewrite append_empty_r.
  - rewrite (rev_app_append (a +:+ b)), IH, (rev_app_append a (String c _)).
    by rewrite append_assoc.
Qed.

Lemma startswith_append p s : startswith p (p +:+ s) = true.
Proof. induction p as [|c p IH]; simpl; [done|]. by rewrite Ascii.eqb_refl. Qed.

Lemma endswith_append suffix s : endswith suffix (s +:+ suffix) = true.
Proof. unfold endswith. rewrite rev_append. apply startswith_append. Qed.

Lemma capture_name_parts sw ts :
  has_char "/" sw = false → has_char "/" ts = false →
  has_char "/" (sw +:+ "_" +:+ ts +:+ ".pcap") = false.
Proof.
  intros Hsw Hts. rewrite !has_char_app, Hsw, Hts. reflexivity.
Qed.

(** The last record of a switch in the list is the one whose total the
    per-switch dict holds. *)
Lemma traffic_by_switch_last_of_switch rs1 r rs2 :
  switch_name (filename r) ∉ switch_names rs2 →
  generate_traffic_by_switch (rs1 ++ r :: rs2) !! switch_name (filename r)
  = Some (total_packets r).
Proof.
  induction rs2 as [|x rs2 IH] using rev_ind; intros Hlater.
  - rewrite AggregateProperties.traffic_by_switch_snoc. apply lookup_insert_eq.
  - unfold switch_names in Hlater. rewrite fmap_app in Hlater.
    apply not_elem_of_app in Hlater as [Hrs2 Hx].
    apply not_elem_of_cons in Hx as [Hx _].
    change (rs1 ++ r :: rs2 ++ [x]) with (rs1 ++ (r :: rs2) ++ [x]).
    rewrite app_assoc, AggregateProperties.traffic_by_switch_snoc.
    rewrite lookup_insert_ne by done. by apply IH.
Qed.

(** X17: The capture that [run_experiment] writes for a switch is picked up
    by [analyze_all_pcaps] whatever else the directory lists, before or after
    it, whenever the switch name has no underscore and neither it nor the
    time stamp has a slash.  Its record carries the frame count of the file;
    [generate_traffic_by_switch] files it under the name of the switch, and
    the count filed there is that of this capture when no later record of the
    list has the same switch name. *)
Theorem capture_filed_under_its_switch pcap_dir sw ts raw before after :
  has_char "_" sw = false → has_char "/" sw = false → has_char "/" ts = false →
  listing_readable (src_listing raw) = true →
  let listing := before ++ (sw +:+ "_" +:+ ts +:+ ".pcap", raw) :: after in
  ∃ r,
    analyze_pcap (capture_file pcap_dir sw ts) raw = Ok r
    ∧ analyze_all_pcaps pcap_dir listing
      = analyze_all_pcaps pcap_dir before ++ r :: analyze_all_pcaps pcap_dir after
    ∧ switch_name (filename r) = sw
    ∧ total_packets r = wc_all raw
    ∧ is_Some (generate_traffic_by_switch (analyze_all_pcaps pcap_dir listing) !! sw)
    ∧ (sw ∉ switch_names (analyze_all_pcaps pcap_dir after) →
       generate_traffic_by_switch (analyze_all_pcaps pcap_dir listing) !! sw
       = Some (wc_all raw)).
Proof.
  intros Hus Hsw Hts Hread listing.
  destruct (parse_host_traffic_readable _ Hread) as [m Hm].
  pose proof (analyze_pcap_parsed (capture_file pcap_dir sw ts) raw m Hm) as Hr.
  assert (Hname : switch_name (basename (capture_file pcap_dir sw ts)) = sw).
  { unfold capture_file. rewrite basename_join by by apply capture_name_parts.
    unfold switch_name.
    change (sw +:+ "_" +:+ ts +:+ ".pcap")
      with (sw +:+ String "_" (ts +:+ ".pcap")).
    by destruct (AggregateClaims.split_head_no_sep "_" sw (ts +:+ ".pcap") Hus)
      as [-> _]. }
  eexists. split; [exact Hr|].
  assert (Hall : analyze_all_pcaps pcap_dir listing
                 = analyze_all_pcaps pcap_dir before
                   ++ {| total_packets := wc_all raw;
                         protocols := protocol_counts raw;
                         host_traffic := m;
                         filename := basename (capture_file pcap_dir sw ts) |}
                   :: analyze_all_pcaps pcap_dir after).
  { unfold listing. rewrite analyze_all_pcaps_app, analyze_all_pcaps_cons.
    replace (endswith ".pcap" (sw +:+ "_" +:+ ts +:+ ".pcap")) with true.
    - change (pcap_dir +:+ "/" +:+ sw +:+ "_" +:+ ts +:+ ".pcap")
        with (capture_file pcap_dir sw ts).
      by rewrite Hr.
    - symmetry. rewrite <- !append_assoc. apply endswith_append. }
  split; [exact Hall|]. split; [exact Hname|]. split; [reflexivity|].
  rewrite Hall. split.
  - apply elem_of_dom.
    rewrite AggregateProperties.traffic_by_switch_dom, elem_of_list_to_set.
    unfold switch_names. rewrite fmap_app, fmap_cons. simpl. rewrite Hname.
    apply elem_of_app. right. apply list_elem_of_here.
  - intros Hlater.
    pose proof (traffic_by_switch_last_of_switch (analyze_all_pcaps pcap_dir before)
                  {| total_packets := wc_all raw;
                     protocols := protocol_counts raw;
                     host_traffic := m;
                     filename := basename (capture_file pcap_dir sw ts) |}
                  (analyze_all_pcaps pcap_dir after)) as Hlast.
    cbn [filename total_packets] in Hlast. rewrite Hname in Hlast.
    by apply Hlast.
Qed.

Lemma capture_filed_under_its_switch_witness :
  let listing := [s1_capture; notes_file] ++ s2_capture :: [ranged_capture] in
  ∃ r,
    analyze_all_pcaps "pcaps" listing
    = analyze_all_pcaps "pcaps" [s1_capture; notes_file]
      ++ r :: analyze_all_pcaps "pcaps" [ranged_capture]
    ∧ switch_name (filename r) = "s2"
    ∧ total_packets r = 340
    ∧ generate_traffic_by_switch (analyze_all_pcaps "pcaps" listing) !! "s2"
      = Some 340.
Proof.
  destruct (capture_filed_under_its_switch "pcaps" "s2" "20250605_100000"
              (RawSummary 340 300 30 10
                 (Some ("      4 10.0.0.1" +:+ nl +:+ "      9 10.0.0.3" +:+ nl)))
              [s1_capture; notes_file] [ranged_capture]
              eq_refl eq_refl eq_refl eq_refl)
    as (r & _ & Hall & Hname & Htotal & _ & Hbar).
  exists r. split; [exact Hall|]. split; [exact Hname|]. split; [exact Htotal|].
  apply Hbar. vm_compute.
  intros Hin. apply elem_of_cons in Hin as [Hin|Hin]; [discriminate|].
  by apply not_elem_of_nil in Hin.
Defined.

End CaptureProperties.

(** ** Which interfaces [apply_qos_policies] configures *)

Module ShapingProperties.
Import MultiServiceNetwork Captures ShapingClaims Samples.

(** X18: [apply_qos_policies] configures only interfaces that [intfList] gives for
    one of the six hosts of the policy, never [lo], and every command issued
    for an interface addresses that interface. *)
Theorem only_host_interfaces_configured intfList host intf cmds :
  (host, intf, cmds) ∈ apply_qos_policies intfList →
  host ∈ ["h1"; "h2"; "h3"; "h4"; "h5"; "h6"]
  ∧ intf ∈ intfList host
  ∧ intf ≠ "lo"
  ∧ Forall (λ c, cmd_dev c = intf) cmds.
Proof.
  unfold apply_qos_policies. rewrite !elem_of_app, !elem_of_qos_loop.
  intros [H|[H|H]]; destruct H as (h & i & Hh & Hi & Hlo & [= -> -> ->]);
    (split; [set_solver|]); (split; [done|]); (split; [done|]);
    repeat constructor.
Qed.

Lemma only_host_interfaces_configured_witness :
  "h3-eth0" ∈ one_interface "h3" ∧ "h3-eth0" ≠ "lo".
Proof.
  destruct (only_host_interfaces_configured one_interface "h3" "h3-eth0"
              (qos_commands "h3-eth0" 1000 "1:20" 800 1000 2))
    as (_ & Hintf & Hlo & _); [|by split].
  vm_compute. do 2 apply list_elem_of_further. apply list_elem_of_here.
Defined.

Lemma apply_qos_policies_covers_witness :
  ∃ cmds, ("h5", "h5-eth0", cmds) ∈ apply_qos_policies one_interface.
Proof.
  apply (apply_qos_policies_covers one_interface "h5" "h5-eth0").
  - do 4 apply list_elem_of_further. apply list_elem_of_here.
  - apply list_elem_of_here.
  - discriminate.
Defined.

(** X20: The qdisc of every configured interface sends unclassified traffic to
    class [1:30]; that class is created on the interfaces of the IoT hosts
    [h5] and [h6] only. *)
Theorem default_class_only_on_iot_hosts intfList :
  Forall (λ e, default_class e.2 = Some "1:30"
               ∧ ("1:30" ∈ cls_id <$> classes_of e.2
                  ↔ e.1.1 ∈ ["h5"; "h6"]))
         (apply_qos_policies intfList).
Proof.
  apply apply_qos_policies_Forall; intros host intf Hhost;
    (split; [reflexivity|]); simpl; set_solver.
Qed.

End ShapingProperties.

(** ** The workloads *)

Module WorkloadProperties.
Import TrafficGenerator Workloads MoreSamples.




Lemma iot_loop_None duration trace : ∀ packet_count log,
  iot_loop duration packet_count log trace = None
  ↔ Forall (λ o, loop_test duration o = true) trace.
Proof.
  induction trace as [|o trace IH]; intros packet_count log; simpl.
  - split; [constructor|done].
  - rewrite Forall_cons. destruct (loop_test duration o).
    + rewrite IH. intuition.
    + split; [done|]. by intros [? _].
Qed.

(** X22: The call is still in its loop at the end of the observations exactly
    when every test of the loop passed: as soon as one test sees the stop
    event set, or the duration elapsed, the call ends. *)
Theorem iot_runs_while_tests_pass duration trace :
  generate_iot_traffic duration trace = None
  ↔ Forall (λ o, stop_set o = false
                 ∧ (elapsed o < inject_Z duration)%Q) trace.
Proof.
  unfold generate_iot_traffic.
  assert (Htest : ∀ o, loop_test duration o = true
            ↔ stop_set o = false ∧ (elapsed o < inject_Z duration)%Q).
  { intros o. unfold loop_test.
    rewrite andb_true_iff, !negb_true_iff.
    rewrite <- not_true_iff_false, Qle_bool_iff. split.
    - intros [Hlt Hstop]. split; [done|]. by apply Qnot_le_lt.
    - intros [Hstop Hlt]. split; [|done]. by apply Qlt_not_le. }
  rewrite <- (Forall_iff _ trace _ Htest).
  rewrite <- (iot_loop_None duration trace 0 []).
  destruct (iot_loop duration 0 [] trace) as [[n log]|]; simpl; [|done].
  by destruct (truediv duration n).
Qed.

Lemma iot_runs_while_tests_pass_witness :
  generate_iot_traffic 10 [LoopObs 0 false 120; LoopObs 3 false 80] = None
  ∧ ¬ Forall (λ o, stop_set o = false ∧ (elapsed o < inject_Z 10)%Q)
             [LoopObs 0 false 120; LoopObs 3 true 80].
Proof.
  split.
  - apply (proj2 (iot_runs_while_tests_pass 10
                    [LoopObs 0 false 120; LoopObs 3 false 80])).
    repeat constructor.
  - intros Hall.
    apply (proj2 (iot_runs_while_tests_pass 10
                    [LoopObs 0 false 120; LoopObs 3 true 80])) in Hall.
    vm_compute in Hall. discriminate.
Defined.

Lemma web_loop_run duration ticks o rest : ∀ events,
  Forall (λ t, web_test duration t = true) ticks →
  web_test duration o = false →
  web_loop duration events (ticks ++ o :: rest)
  = Some (events
          ++ (t ← ticks;
              [Ping (request_size t); LogRequest (request_size t);
               LogResponse (response_size t)])).
Proof.
  induction ticks as [|t ticks IH]; intros events Hall Hstop; simpl.
  - by rewrite Hstop, app_nil_r.
  - apply Forall_cons in Hall as [Ht Hall]. rewrite Ht.
    rewrite IH by done. by rewrite <- app_assoc.
Qed.

(** X27: A run of the web workload pings once per pass of its loop, with the
    request size it logs; the response size is only logged.  The call ends
    normally when the loop test first fails, also when it fails at once and
    nothing was sent. *)
Theorem web_pings_once_per_pass duration ticks o rest :
  Forall (λ t, web_test duration t = true) ticks →
  web_test duration o = false →
  generate_web_traffic duration (ticks ++ o :: rest)
  = Some (t ← ticks;
          [Ping (request_size t); LogRequest (request_size t);
           LogResponse (response_size t)]).
Proof.
  intros Hall Hstop. unfold generate_web_traffic.
  by rewrite (web_loop_run _ _ _ _ [] Hall Hstop).
Qed.

Lemma web_pings_once_per_pass_witness :
  generate_web_traffic 10
    ([WebObs 0 false 300 20000] ++ WebObs 2 true 500 1000 :: [])
  = Some [Ping 300; LogRequest 300; LogResponse 20000]
  ∧ generate_web_traffic 0 ([] ++ WebObs 0 false 300 20000 :: []) = Some [].
Proof.
  split.
  - apply (web_pings_once_per_pass 10 [WebObs 0 false 300 20000]
             (WebObs 2 true 500 1000) []).
    + repeat constructor.
    + reflexivity.
  - apply (web_pings_once_per_pass 0 [] (WebObs 0 false 300 20000) []).
    + constructor.
    + reflexivity.
Defined.

Lemma video_loop_commands duration trace : ∀ q events out,
  video_loop duration q events trace = Some out →
  filter (λ e, is_command e = true) out
  = filter (λ e, is_command e = true) events.
Proof.
  induction trace as [|o trace IH]; intros q events out; simpl; [done|].
  destruct (video_test duration o); [|by intros [= <-]].
  destruct (changes_quality o); intros Hout; apply IH in Hout; [|done].
  rewrite Hout, filter_app. simpl. apply app_nil_r.
Qed.

(** X23: Whatever qualities the loop logs, the stream is sent once, at the 5 Mbps
    of 720p and for the whole duration: a change of quality is written to
    the log and changes nothing of what the hosts are told to do. *)
Theorem video_stream_never_changes duration trace events :
  generate_video_traffic duration trace = Some events →
  filter (λ e, is_command e = true) events
  = [StartServer; SendStream (inject_Z 5) duration; WaitOutput; KillServer].
Proof.
  unfold generate_video_traffic.
  destruct (video_loop duration Q720p _ trace) as [out|] eqn:Hloop; [|done].
  simpl. intros [= <-]. rewrite filter_app.
  by rewrite (video_loop_commands _ _ _ _ _ Hloop).
Qed.

Lemma video_stream_never_changes_witness :
  ∃ events,
    generate_video_traffic 30
      [VideoObs 0 false (1 # 20) Q4k; VideoObs 1 false (1 # 2) Q480p;
       VideoObs 2 true 0 Q480p] = Some events
    ∧ LogChange Q4k (inject_Z 25) ∈ events
    ∧ filter (λ e, is_command e = true) events
      = [StartServer; SendStream (inject_Z 5) 30; WaitOutput; KillServer].
Proof.
  eexists. split; [reflexivity|]. split.
  - do 3 apply list_elem_of_further. apply list_elem_of_here.
  - apply (video_stream_never_changes 30
             [VideoObs 0 false (1 # 20) Q4k; VideoObs 1 false (1 # 2) Q480p;
              VideoObs 2 true 0 Q480p]).
    reflexivity.
Defined.

(** The tactic that takes the six lookups of [start_all_traffic] apart. *)
Ltac host_cases hosts :=
  unfold start_all_traffic, start_thread;
  destruct (hosts !! "h1") as [?|] eqn:?;
  destruct (hosts !! "h2") as [?|] eqn:?;
  destruct (hosts !! "h3") as [?|] eqn:?;
  destruct (hosts !! "h4") as [?|] eqn:?;
  destruct (hosts !! "h5") as [?|] eqn:?;
  destruct (hosts !! "h6") as [?|] eqn:?;
  simpl.

(** X24: [start_all_traffic] returns without a [KeyError] exactly when the host
    dict has the six hosts [h1] to [h6]; it has then started five threads. *)
Theorem all_threads_started_iff hosts duration threads :
  (∀ h, h ∈ ["h1"; "h2"; "h3"; "h4"; "h5"; "h6"] → is_Some (hosts !! h))
  ↔ ∃ started, start_all_traffic hosts duration threads
               = (threads ++ started, None)
               ∧ length started = 5%nat.
Proof.
  split.
  - intros Hall.
    destruct (Hall "h1") as [a1 H1]; [set_solver|].
    destruct (Hall "h2") as [a2 H2]; [set_solver|].
    destruct (Hall "h3") as [a3 H3]; [set_solver|].
    destruct (Hall "h4") as [a4 H4]; [set_solver|].
    destruct (Hall "h5") as [a5 H5]; [set_solver|].
    destruct (Hall "h6") as [a6 H6]; [set_solver|].
    unfold start_all_traffic, start_thread. rewrite H1, H2, H3, H4, H5, H6.
    eexists. rewrite <- !app_assoc. simpl. split; reflexivity.
  - intros (started & Hrun & _) h Hh. revert Hrun.
    host_cases hosts; intros [= _]; try discriminate;
      repeat (apply elem_of_cons in Hh as [->|Hh]; [by eexists|]);
      by apply not_elem_of_nil in Hh.
Qed.

Lemma all_threads_started_iff_witness :
  ∃ started, start_all_traffic six_hosts 60 [] = ([] ++ started, None)
             ∧ length started = 5%nat.
Proof.
  apply (proj1 (all_threads_started_iff six_hosts 60 [])).
  intros h Hh.
  repeat (apply elem_of_cons in Hh as [->|Hh]; [by eexists|]).
  by apply not_elem_of_nil in Hh.
Defined.

(** X25: When a host is missing, [start_all_traffic] ends in a [KeyError] for one
    of [h1] to [h6] that the dict does not hold; the threads started before
    it, fewer than five, stay started. *)
Theorem missing_host_stops_the_start hosts duration threads now key :
  start_all_traffic hosts duration threads = (now, Some key) →
  key ∈ ["h1"; "h2"; "h3"; "h4"; "h5"; "h6"]
  ∧ hosts !! key = None
  ∧ ∃ started, now = threads ++ started ∧ (length started < 5)%nat.
Proof.
  host_cases hosts; intros [= <- <-]; try discriminate;
    (split; [set_solver|]); (split; [done|]);
    rewrite <- ?app_assoc; simpl;
    first [ by exists []; rewrite app_nil_r; simpl; split; [|lia]
          | eexists; split; [reflexivity|]; simpl; lia ].
Qed.

Lemma missing_host_stops_the_start_witness :
  ∃ now, start_all_traffic two_hosts 10 [] = (now, Some "h3")
         ∧ length now = 1%nat ∧ two_hosts !! "h3" = None.
Proof.
  exists [Thread WebTraffic "h1" "h2" 10].
  assert (Hrun : start_all_traffic two_hosts 10 []
                 = ([Thread WebTraffic "h1" "h2" 10], Some "h3"))
    by (vm_compute; reflexivity).
  split; [exact Hrun|]. split; [reflexivity|].
  exact (proj1 (proj2 (missing_host_stops_the_start _ _ _ _ _ Hrun))).
Defined.

End WorkloadProperties.

(** ** The experiments *)

Module RunnerProperties.
Import ExperimentRunner.

Lemma results_dir_inj qos routing qos' routing' :
  experiment_results_dir qos routing = experiment_results_dir qos' routing' →
  qos = qos' ∧ routing = routing'.
Proof.
  unfold experiment_results_dir, experiment_name.
  destruct qos, qos'; cbv [String.append]; intros [= H]; try done;
    try discriminate.
Qed.

(** X26: Two experiments that differ in the QoS flag or in the routing type have
    different results directories: no experiment writes over the results of
    another. *)
Theorem experiments_have_their_own_directory qos routing qos' routing' :
  (qos, routing) ≠ (qos', routing') →
  experiment_results_dir qos routing ≠ experiment_results_dir qos' routing'.
Proof.
  intros Hne Heq. apply Hne.
  by destruct (results_dir_inj _ _ _ _ Heq) as [-> ->].
Qed.

Lemma experiments_have_their_own_directory_witness :
  experiment_results_dir false "static" ≠ experiment_results_dir true "static".
Proof.
  apply experiments_have_their_own_directory. discriminate.
Defined.

End RunnerProperties.
